(** * sdf: fit results, their on-disk cache and the model selection loop

    A shallow embedding of [sdf/result.py] (class [Result]: [file_info],
    [get], [star_results], [disk_r_results]) and of [fit.py]
    ([fit_results]).

    Conventions of the embedding.
    - A Python object is its attribute dictionary ([Obj], a [gmap] from
      attribute names to values); [hasattr] is a lookup.
    - Python floats that the code computes with are kept abstract (class
      [Float]): no algebraic law is assumed of them.  Floats that are only
      compared (file modification times, evidences) are the rationals
      they denote.
    - Exceptions are results [Raise e]; functions that touch the file
      system are state transformers over a [World].  A [Process] is a
      world with the memo that [functools.lru_cache] keeps for [get].
    - Modules of the package that are not part of the sources at hand
      ([config], [fitting], [model], [photometry], [spectrum], [utils]) and
      the third-party libraries enter as fields of the records [Config] and
      [Externals]. *)

From stdpp Require Import gmap strings list fin_maps.
From Stdlib Require Import Ascii QArith Qround Lqa.

#[local] Close Scope Q_scope.
#[local] Open Scope string_scope.
#[local] Open Scope list_scope.

(** ** Strings and paths *)

Definition chars (s : string) : list ascii := String.list_ascii_of_string s.
Definition str (l : list ascii) : string := String.string_of_list_ascii l.

Fixpoint drop_while {A} (p : A → bool) (l : list A) : list A :=
  match l with
  | [] => []
  | x :: l' => if p x then drop_while p l' else l
  end.

Fixpoint take_while {A} (p : A → bool) (l : list A) : list A :=
  match l with
  | [] => []
  | x :: l' => if p x then x :: take_while p l' else []
  end.

Definition char_in (set : string) (c : ascii) : bool :=
  existsb (Ascii.eqb c) (chars set).

(** [s.rstrip(set)]: drops from the right every character that occurs in
    [set] (a set of characters, not a suffix). *)
Definition rstrip (s set : string) : string :=
  str (rev (drop_while (char_in set) (rev (chars s)))).

Definition is_slash (c : ascii) : bool := Ascii.eqb c "/"%char.

(** [(p[:i], p[i:])] for [i = p.rfind('/') + 1]. *)
Definition rsplit_slash (p : string) : string * string :=
  let r := rev (chars p) in
  (str (rev (drop_while (λ c, negb (is_slash c)) r)),
   str (rev (take_while (λ c, negb (is_slash c)) r))).

(** [posixpath.dirname]. *)
Definition dirname (p : string) : string :=
  let head := (rsplit_slash p).1 in
  if negb (String.eqb head "") && negb (forallb is_slash (chars head))
  then rstrip head "/" else head.

(** [posixpath.basename]. *)
Definition basename (p : string) : string := (rsplit_slash p).2.

(** [sep.join(l)]. *)
Definition join (sep : string) (l : list string) : string := String.concat sep l.

(** [sub in s] on strings. *)
Fixpoint contains (sub s : string) : bool :=
  String.prefix sub s ||
  match s with
  | EmptyString => false
  | String _ s' => contains sub s'
  end.

(** [s.replace(old, '')] for a non-empty [old]: occurrences are removed
    from the left, without overlap.  [skip] counts the characters of a
    matched occurrence that are still to be dropped. *)
Fixpoint remove_from (old : string) (skip : nat) (s : string) : string :=
  match s with
  | EmptyString => EmptyString
  | String c s' =>
      match skip with
      | S k => remove_from old k s'
      | O => if String.prefix old s
             then remove_from old (String.length old - 1) s'
             else String c (remove_from old 0 s')
      end
  end.

Definition remove_all (old s : string) : string := remove_from old 0 s.

(** ** Numbers *)

(** The floating-point operations the code uses.  [of_Q] reads a decimal
    literal. *)
Class Float (F : Type) := {
  of_Q : Q → F;
  fadd : F → F → F;
  fsub : F → F → F;
  fmul : F → F → F;
  fdiv : F → F → F;
  fpow : F → F → F;
  fsqrt : F → F;
  flt : F → F → bool;
}.

(** What the guard on the summed stellar luminosity needs of the floats:
    [0.0 + 0.0] is [0.0], and [0.0 > 0.0] is false. *)
Class FloatZero (F : Type) `{Float F} := {
  fadd_zero : fadd (of_Q 0%Q) (of_Q 0%Q) = of_Q 0%Q;
  flt_zero : flt (of_Q 0%Q) (of_Q 0%Q) = false;
}.

(** Comparisons of the floats that are only compared. *)
Definition Qltb (a b : Q) : bool := negb (Qle_bool b a).

Lemma Qltb_lt a b : Qltb a b = true ↔ (a < b)%Q.
Proof.
  unfold Qltb. rewrite negb_true_iff, <- not_true_iff_false, Qle_bool_iff.
  split; [apply Qnot_le_lt | apply Qlt_not_le].
Qed.

(** [np.max] on the evidences; the list is not empty where it is used. *)
Definition np_max (l : list Q) : Q :=
  match l with
  | [] => 0%Q
  | x :: l' => foldl (λ a b, if Qle_bool a b then b else a) x l'
  end.

(** ** Configuration ([sdf.config]) *)

Inductive Tag := Star | Disk.

Definition tag_str (t : Tag) : string :=
  match t with Star => "star" | Disk => "disk" end.

Record Config := {
  models_star : list string;            (* cfg.models['star'] *)
  models_disk : list string;            (* cfg.models['disk'] *)
  models_disk_r : list string;          (* cfg.models['disk_r'] *)
  fitting_models : list (list string);  (* cfg.fitting['models'] *)
  pmn_dir_suffix : string;              (* cfg.fitting['pmn_dir_suffix'] *)
  pmn_model_suffix : string;            (* cfg.fitting['pmn_model_suffix'] *)
  n_samples : nat;                      (* cfg.fitting['n_samples'] *)
}.

(** ** Exceptions *)

Inductive Exn :=
| SdfError (comp : string)
| FileNotFoundError (path : string)
| UnpicklingError (path : string)
| IndexError
| UnboundLocalError
| AttributeError (name : string)
| TypeError
| ValueError
| IsADirectoryError (path : string).

Inductive Res (A : Type) :=
| Ok (a : A)
| Raise (e : Exn).
Arguments Ok {A} a.
Arguments Raise {A} e.

#[global] Instance Res_ret : MRet Res := λ A a, Ok a.
#[global] Instance Res_bind : MBind Res := λ A B f m,
  match m with Ok a => f a | Raise e => Raise e end.
#[global] Instance Res_fmap : FMap Res := λ A B f m,
  match m with Ok a => Ok (f a) | Raise e => Raise e end.


Fixpoint assoc_first {V} (k : string) (l : list (string * V)) : option V :=
  match l with
  | [] => None
  | (k', v) :: l' => if String.eqb k k' then Some v else assoc_first k l'
  end.



(** [l[i]] on a list, for [i >= 0]. *)
Definition index {A} (l : list A) (i : nat) : Res A :=
  match l !! i with Some x => Ok x | None => Raise IndexError end.

(** [l[i:j]]. *)
Definition slice {A} (l : list A) (i j : nat) : list A := take (j - i) (drop i l).

(** The components are classified in order; the tuple of tags grows by one
    per component and the first component in neither list raises. *)
Fixpoint classify (cfg : Config) (comps : list string) (acc : list Tag) : Res (list Tag) :=
  match comps with
  | [] => Ok acc
  | comp :: rest =>
      if bool_decide (comp ∈ models_star cfg) then classify cfg rest (acc ++ [Star])
      else if bool_decide (comp ∈ models_disk cfg) then classify cfg rest (acc ++ [Disk])
      else Raise (SdfError comp)
  end.

(** The paths [file_info] derives from the raw photometry file. *)
Definition path_of (rawphot : string) : string := dirname rawphot.
Definition id_of (rawphot : string) : string := rstrip (basename rawphot) "-rawphot.txt".
Definition pmn_dir_of (cfg : Config) (rawphot : string) : string :=
  path_of rawphot +:+ "/" +:+ id_of rawphot +:+ pmn_dir_suffix cfg.
Definition pmn_base_of (cfg : Config) (rawphot : string) (comps : list string) : string :=
  pmn_dir_of cfg rawphot +:+ "/" +:+ join "+" comps +:+ pmn_model_suffix cfg.
Definition pickle_of (cfg : Config) (rawphot : string) (comps : list string) : string :=
  pmn_base_of cfg rawphot comps +:+ ".pkl".
Definition marker_of (cfg : Config) (rawphot : string) (comps : list string) : string :=
  pmn_base_of cfg rawphot comps +:+ "phys_live.points".

(** ** Values, objects and the world *)

Section Sdf.
Context {F : Type} `{FloatF : Float F}.
(** Objects of the external libraries (observations, models, the
    analyzer, spectra, keyword tables): opaque. *)
Context {Ext : Type}.

#[warnings="-register-all"]
Inductive Value :=
| VNone
| VInt (n : Z)
| VQ (q : Q)                        (* a float that is only compared *)
| VFloat (x : F)
| VStr (s : string)
| VTuple (vs : list Value)          (* tuples, lists and arrays *)
| VDict (d : gmap string Value)
| VExt (e : Ext).

Definition VStrs (l : list string) : Value := VTuple (VStr <$> l).
Definition VArr1 (a : list F) : Value := VTuple (VFloat <$> a).
Definition VArr2 (a : list (list F)) : Value := VTuple (VArr1 <$> a).
Definition VArr3 (a : list (list (list F))) : Value := VTuple (VArr2 <$> a).
Definition VDictF (d : gmap string F) : Value := VDict (VFloat <$> d).
Definition VDictA (d : gmap string (list F)) : Value := VDict (VArr1 <$> d).
Definition VOpt (o : option Value) : Value := default VNone o.

(** An object is its attribute dictionary. *)
Abbreviation Obj := (gmap string Value).

Definition hasattr (o : option Obj) (name : string) : bool :=
  match o with
  | Some attrs => bool_decide (is_Some (attrs !! name))
  | None => false                    (* the object None *)
  end.

Inductive Content :=
| Data
| Directory
| Pickled (o : Obj).

Record File := { f_mtime : Q; f_content : Content }.

Abbreviation FS := (gmap string File).

(** Calls that leave the process, in the order they are made. *)
Inductive Event :=
| EvMkdir (path : string)
| EvPickleLoad (path : string)
| EvReadPhot (path : string)
| EvRemove (path : string)
| EvMultinest (dir : string)
| EvSavefig (path : string)
| EvPickleDump (path : string)
| EvWriteHtml (path : string).

Record World := { fs : FS; now : Q; trace : list Event }.

Definition M (A : Type) : Type := World → Res A * World.

Definition retM {A} (a : A) : M A := λ w, (Ok a, w).
Definition bindM {A B} (m : M A) (f : A → M B) : M B := λ w,
  match m w with
  | (Ok a, w') => f a w'
  | (Raise e, w') => (Raise e, w')
  end.

Notation "'let!' x := m 'in' k" := (bindM m (λ x, k))
  (at level 10, x pattern, m at level 100, k at level 200,
   format "'[v' 'let!'  x  :=  m  'in' '/' k ']'").

Definition lift {A} (r : Res A) : M A := λ w, (r, w).
Definition raise {A} (e : Exn) : M A := lift (Raise e).
Definition the_fs : M FS := λ w, (Ok (fs w), w).
Definition the_time : M Q := λ w, (Ok (now w), w).
Definition emit (e : Event) : M () :=
  λ w, (Ok (), {| fs := fs w; now := now w; trace := trace w ++ [e] |}).
Definition set_fs (fs' : FS) : M () :=
  λ w, (Ok (), {| fs := fs'; now := now w; trace := trace w |}).

(** [os.path.exists]. *)
Definition path_exists (p : string) : M bool :=
  let! fs := the_fs in retM (bool_decide (is_Some (fs !! p))).

(** [os.path.getmtime]: raises on a missing file. *)
Definition getmtime (p : string) : M Q :=
  let! fs := the_fs in
  match fs !! p with
  | Some f => retM (f_mtime f)
  | None => raise (FileNotFoundError p)
  end.

(** Creating or overwriting a file stamps it with the current time. *)
Definition write_file (p : string) (c : Content) : M () :=
  let! fs := the_fs in
  let! t := the_time in
  set_fs (<[p := {| f_mtime := t; f_content := c |}]> fs).

Definition mkdir (p : string) : M () :=
  let! _ := emit (EvMkdir p) in write_file p Directory.

(** [pickle.load] of the file at [p]. *)
Definition pickle_load (p : string) : M Obj :=
  let! _ := emit (EvPickleLoad p) in
  let! fs := the_fs in
  match fs !! p with
  | Some {| f_content := Pickled o |} => retM o
  | Some _ => raise (UnpicklingError p)
  | None => raise (FileNotFoundError p)
  end.

Definition pickle_dump (p : string) (o : Obj) : M () :=
  let! _ := emit (EvPickleDump p) in write_file p (Pickled o).

(** Reading a string attribute of an object. *)
Definition attr_str (o : Obj) (name : string) : M string :=
  match o !! name with
  | Some (VStr s) => retM s
  | _ => raise (AttributeError name)
  end.

(** ** [Result.file_info] and the constructor *)

Variable cfg : Config.

Definition file_info (self : Obj) (rawphot : string) (model_comps : list string) : M Obj :=
  (* component info *)
  let self := <["model_comps" := VStrs model_comps]> self in
  let! tags := lift (classify cfg model_comps []) in
  let self := <["star_or_disk" := VStrs (tag_str <$> tags)]> self in
  let self := <["n_comps" := VInt (Z.of_nat (length model_comps))]> self in
  (* where the rawphot file is *)
  let self := <["rawphot" := VStr rawphot]> self in
  let path := dirname rawphot in
  let self := <["path" := VStr path]> self in
  (* id *)
  let id := rstrip (basename rawphot) "-rawphot.txt" in
  let self := <["id" := VStr id]> self in
  (* where the multinest output is (or will be), create if needed *)
  let pmn_dir := path +:+ "/" +:+ id +:+ pmn_dir_suffix cfg in
  let self := <["pmn_dir" := VStr pmn_dir]> self in
  let! there := path_exists pmn_dir in
  let! _ := (if there then retM () else mkdir pmn_dir) in
  (* the base name for multinest files *)
  let pmn_base := pmn_dir +:+ "/" +:+ join "+" model_comps +:+ pmn_model_suffix cfg in
  let self := <["pmn_base" := VStr pmn_base]> self in
  (* pickle file, may not exist yet *)
  let self := <["pickle" := VStr (pmn_base +:+ ".pkl")]> self in
  retM self.

(** [Result(rawphot, model_comps)]: a fresh object filled by [file_info]. *)
Definition Result_new (rawphot : string) (model_comps : list string) : M Obj :=
  file_info ∅ rawphot model_comps.

(** The attributes [file_info] assigns. *)
Definition file_info_attrs : list string :=
  ["model_comps"; "star_or_disk"; "n_comps"; "rawphot"; "path"; "id";
   "pmn_dir"; "pmn_base"; "pickle"].

(** The tag of one component: the star list is asked first. *)
Definition tag_of (comp : string) : option Tag :=
  if bool_decide (comp ∈ models_star cfg) then Some Star
  else if bool_decide (comp ∈ models_disk cfg) then Some Disk
  else None.

(** The world after [file_info]: the sampler's directory exists. *)
Definition with_pmn_dir (rawphot : string) (w : World) : World :=
  let d := pmn_dir_of cfg rawphot in
  if bool_decide (is_Some (fs w !! d)) then w
  else {| fs := <[d := {| f_mtime := now w; f_content := Directory |}]> (fs w);
          now := now w;
          trace := trace w ++ [EvMkdir d] |}.

(** The object after [file_info], given the tags of the components. *)
Definition refreshed (self : Obj) (rawphot : string) (model_comps : list string)
    (tags : list Tag) : Obj :=
  <["pickle" := VStr (pickle_of cfg rawphot model_comps)]>
  (<["pmn_base" := VStr (pmn_base_of cfg rawphot model_comps)]>
  (<["pmn_dir" := VStr (pmn_dir_of cfg rawphot)]>
  (<["id" := VStr (id_of rawphot)]>
  (<["path" := VStr (path_of rawphot)]>
  (<["rawphot" := VStr rawphot]>
  (<["n_comps" := VInt (Z.of_nat (length model_comps))]>
  (<["star_or_disk" := VStrs (tag_str <$> tags)]>
  (<["model_comps" := VStrs model_comps]> self)))))))).

(** A pickle of [stored] lies where [get] looks for it and is more
    recent than the photometry file and than the sampler's marker. *)
Definition cache_valid (w : World) (rawphot : string) (model_comps : list string)
    (stored : Obj) : Prop :=
  ∃ fp fr fm,
    fs w !! pickle_of cfg rawphot model_comps = Some fp ∧
    f_content fp = Pickled stored ∧
    fs w !! rawphot = Some fr ∧
    fs w !! marker_of cfg rawphot model_comps = Some fm ∧
    (f_mtime fr < f_mtime fp)%Q ∧ (f_mtime fm < f_mtime fp)%Q.

(** The world after a pickle was loaded. *)
Definition loaded (p : string) (w : World) : World :=
  {| fs := fs w; now := now w; trace := trace w ++ [EvPickleLoad p] |}.

(** ** The derived quantities of one fit *)

(** What [star_results_one] and [disk_r_results_one] need of the external
    world: the percentile reduction [fitting.pmn_pc] on a vector of
    samples, and the constants of [numpy], [astropy.units] and [config]. *)
Record Physics := {
  pmn_pc1 : list F → list F → list F → F * F * F;
  np_pi : F;
  pc_to_m : F;              (* u.pc.to(u.m) *)
  L_sun_to_W : F;           (* u.L_sun.to(u.W) *)
  R_sun_to_m : F;           (* u.R_sun.to(u.m) *)
  cfg_ssr : F;              (* cfg.ssr *)
}.

(** The attributes of [self] the two functions read.  A component of
    [pl_models] is given by its [SpecModel] members, in order, each as the
    map from a parameter sample to the irradiance of its spectrum
    ([ObsSpectrum(m.wavelength, m.fnujy(par))] after [fill_irradiance]). *)
Record Fit := {
  model_comps : list string;
  comp_parameters : list (list string);
  best_params : list F;
  best_params_1sig : list F;
  comp_best_params : list (list F);
  comp_best_params_1sig : list (list F);
  comp_param_samples : list (list (list F));
  param_sample_probs : list F;
  pl_models : list (list (list F → F));
  parallax : option (list F);           (* distributions['parallax'] *)
  kw_plx_value : option F;              (* obs_keywords['plx_value'] *)
  kw_plx_err : option F;                (* obs_keywords['plx_err'] *)
}.

Variable phys : Physics.

Definition zeros (n : nat) : list F := replicate n (of_Q 0%Q).
Definition np_sum (a : list F) : F := foldl fadd (of_Q 0%Q) a.
Definition pcts : list F := [of_Q 16%Q; of_Q 50%Q; of_Q 84%Q].

(** [a[j] = x] on an array. *)
Definition assign (a : list F) (j : nat) (x : F) : Res (list F) :=
  if decide (j < length a) then Ok (<[j := x]> a) else Raise IndexError.

(** [l[-1]]. *)
Definition last_item (l : list F) : Res F :=
  match last l with Some x => Ok x | None => Raise IndexError end.

(** [lo,d[key],hi = pmn_pc(probs,dist,[16.0,50.0,84.0])] followed by the
    three assignments of the uncertainties. *)
Definition reduce_into (probs : list F) (key : string) (dist : list F)
    (d : gmap string F) : gmap string F :=
  let '(lo, med, hi) := pmn_pc1 phys probs dist pcts in
  let d := <[key := med]> d in
  let d := <["e_" +:+ key +:+ "_lo" := fsub med lo]> d in
  let d := <["e_" +:+ key +:+ "_hi" := fsub hi med]> d in
  <["e_" +:+ key := fdiv (fadd (fsub med lo) (fsub hi med)) (of_Q 2%Q)]> d.

(** [irradiance * 4 * np.pi * (u.pc.to(u.m))**2 / u.L_sun.to(u.W)]. *)
Definition lum_1pc (irradiance : F) : F :=
  fdiv (fmul (fmul (fmul irradiance (of_Q 4%Q)) (np_pi phys))
             (fpow (pc_to_m phys) (of_Q 2%Q)))
       (L_sun_to_W phys).

(** The inner [for m in self.pl_models[i]]: every [SpecModel] rebinds [s]. *)
Definition rebind_s (ms : list (list F → F)) (par : list F) (s : option F) : option F :=
  foldl (λ _ m, Some (m par)) s ms.

(** The loop that fills a luminosity-at-1pc array, from sample [j] on.
    [s] is the local variable of the same name: unbound at first, and
    left as it was by a component without [SpecModel]. *)
Fixpoint lum_1pc_loop (self : Fit) (i j : nat) (samples : list (list F))
    (s : option F) (dist : list F) : Res (list F) :=
  match samples with
  | [] => Ok dist
  | par :: rest =>
      ms ← index (pl_models self) i;
      match rebind_s ms par s with
      | None => Raise UnboundLocalError
      | Some irr =>
          dist ← assign dist j (lum_1pc irr);
          lum_1pc_loop self i (S j) rest (Some irr) dist
      end
  end.

(** *** [Result.star_results_one] *)

Fixpoint star_params_loop (self : Fit) (j : nat) (pars : list string)
    (star : gmap string F) : Res (gmap string F) :=
  match pars with
  | [] => Ok star
  | par :: rest =>
      bp ← index (best_params self) j;
      let star := <[par := bp]> star in
      sg ← index (best_params_1sig self) j;
      let star := <["e_" +:+ par := sg]> star in
      star_params_loop self (S j) rest star
  end.

Fixpoint rstar_loop (plx : list F) (j : nat) (samples : list (list F))
    (dist : list F) : Res (list F) :=
  match samples with
  | [] => Ok dist
  | par :: rest =>
      norm ← last_item par;
      p ← index plx j;
      dist ← assign dist j
        (fdiv (fdiv (fmul (fsqrt (fdiv (fmul (cfg_ssr phys) (fpow (of_Q 10%Q) norm))
                                       (np_pi phys)))
                          (pc_to_m phys))
                    p)
              (R_sun_to_m phys));
      rstar_loop plx (S j) rest dist
  end.

(** Returns the two dictionaries and the new value of
    [self.distributions['lstar_1pc_tot']], which the function updates in
    place. *)
Definition star_results_one (self : Fit) (tot : list F) (i : nat)
    : Res (gmap string F * gmap string (list F) * list F) :=
  let star : gmap string F := ∅ in
  let distributions : gmap string (list F) := ∅ in
  pars ← index (comp_parameters self) i;
  star ← star_params_loop self 0 pars star;
  (* stellar luminosity at 1pc, uncertainty is normalisation *)
  samples ← index (comp_param_samples self) i;
  lstar_1pc_dist ← lum_1pc_loop self i 0 samples None (zeros (n_samples cfg));
  let distributions := <["lstar_1pc" := lstar_1pc_dist]> distributions in
  let tot := zip_with fadd tot lstar_1pc_dist in
  let star := reduce_into (param_sample_probs self) "lstar_1pc" lstar_1pc_dist star in
  (* distance-dependent params *)
  match parallax self with
  | None => Ok (star, distributions, tot)
  | Some plx =>
      match kw_plx_value self, kw_plx_err self with
      | Some v, Some e =>
          let star := <["plx_arcsec" := fdiv v (of_Q 1000%Q)]> star in
          let star := <["e_plx_arcsec" := fdiv e (of_Q 1000%Q)]> star in
          (* combine lstar_1pc and plx distributions for lstar *)
          let lstar_dist :=
            zip_with fdiv lstar_1pc_dist ((λ p, fpow p (of_Q 2%Q)) <$> plx) in
          let distributions := <["lstar" := lstar_dist]> distributions in
          let star := reduce_into (param_sample_probs self) "lstar" lstar_dist star in
          samples ← index (comp_param_samples self) i;
          rstar_dist ← rstar_loop plx 0 samples (zeros (n_samples cfg));
          let distributions := <["rstar" := rstar_dist]> distributions in
          let star := reduce_into (param_sample_probs self) "rstar" rstar_dist star in
          Ok (star, distributions, tot)
      | _, _ => Raise TypeError
      end
  end.

(** *** [Result.star_results] *)

Fixpoint star_results_loop (self : Fit) (i : nat) (comps : list string)
    (star : list (gmap string F)) (distributions : list (gmap string (list F)))
    (tot : list F)
    : Res (list (gmap string F) * list (gmap string (list F)) * list F) :=
  match comps with
  | [] => Ok (star, distributions, tot)
  | comp :: rest =>
      if bool_decide (comp ∈ models_star cfg) then
        '(star_one, dist_one, tot) ← star_results_one self tot i;
        star_results_loop self (S i) rest (star ++ [star_one])
                          (distributions ++ [dist_one]) tot
      else star_results_loop self (S i) rest star distributions tot
  end.

Definition star_results (self : Fit) (tot : list F) :=
  star_results_loop self 0 (model_comps self) [] [] tot.

(** *** [Result.disk_r_results_one] *)

(** The loop over the samples that fills [temp_dist] for parameter [par]
    at position [j]. *)
Fixpoint temp_loop (par : string) (j k : nat) (samples : list (list F))
    (temp_dist : list F) : Res (list F) :=
  match samples with
  | [] => Ok temp_dist
  | sample :: rest =>
      if String.eqb par "log_Temp" then
        x ← index sample j;
        temp_dist ← assign temp_dist k (fpow (of_Q 10%Q) x);
        temp_loop par j (S k) rest temp_dist
      else if String.eqb par "Temp" then
        x ← index sample j;
        temp_dist ← assign temp_dist k x;
        temp_loop par j (S k) rest temp_dist
      else temp_loop par j (S k) rest temp_dist
  end.

(** The loop over the parameters of component [i], from position [j] on.
    [temp_dist] is the local variable of the same name, unbound until a
    parameter whose name contains [Temp] is met. *)
Fixpoint disk_params_loop (self : Fit) (i j : nat) (pars : list string)
    (disk_r : gmap string F) (temp_dist : option (list F))
    : Res (gmap string F * option (list F)) :=
  match pars with
  | [] => Ok (disk_r, temp_dist)
  | par :: rest =>
      disk_r ←
        (if contains "log_" par then
           let par_in := remove_all "log_" par in
           best_i ← index (comp_best_params self) i;
           b ← index best_i j;
           let disk_r := <[par_in := fpow (of_Q 10%Q) b]> disk_r in
           sig_i ← index (comp_best_params_1sig self) i;
           sg ← index sig_i j;
           Ok (<["e_" +:+ par_in := fpow (of_Q 10%Q) sg]> disk_r)
         else
           let par_in := par in
           best_i ← index (comp_best_params self) i;
           b ← index best_i j;
           let disk_r := <[par_in := b]> disk_r in
           sig_i ← index (comp_best_params_1sig self) i;
           sg ← index sig_i j;
           Ok (<["e_" +:+ par_in := sg]> disk_r));
      (* array of disk temperature samples *)
      temp_dist ←
        (if contains "Temp" par then
           samples ← index (comp_param_samples self) i;
           t ← temp_loop par j 0 samples (zeros (n_samples cfg));
           Ok (Some t)
         else Ok temp_dist);
      disk_params_loop self i (S j) rest disk_r temp_dist
  end.

(** [tot] is [self.distributions['lstar_1pc_tot']] at the time of the call. *)
Definition disk_r_results_one (self : Fit) (tot : list F) (i : nat)
    : Res (gmap string F * gmap string (list F)) :=
  let disk_r : gmap string F := ∅ in
  let distributions : gmap string (list F) := ∅ in
  pars ← index (comp_parameters self) i;
  '(disk_r, temp_dist) ← disk_params_loop self i 0 pars disk_r None;
  (* disk and fractional luminosity *)
  samples ← index (comp_param_samples self) i;
  ldisk_1pc_dist ← lum_1pc_loop self i 0 samples None (zeros (n_samples cfg));
  let distributions := <["ldisk_1pc" := ldisk_1pc_dist]> distributions in
  let disk_r := reduce_into (param_sample_probs self) "ldisk_1pc" ldisk_1pc_dist disk_r in
  (* stellar luminosities (if >1 star) were summed already *)
  if flt (of_Q 0%Q) (np_sum tot) then
    let ldisk_lstar_dist := zip_with fdiv ldisk_1pc_dist tot in
    let distributions := <["ldisk_lstar" := ldisk_lstar_dist]> distributions in
    let disk_r :=
      reduce_into (param_sample_probs self) "ldisk_lstar" ldisk_lstar_dist disk_r in
    (* distance (and stellar L)-dependent params *)
    match parallax self with
    | None => Ok (disk_r, distributions)
    | Some plx =>
        let lstar := zip_with fdiv tot plx in
        match temp_dist with
        | None => Raise UnboundLocalError
        | Some temp_dist =>
            let rdisk_bb_dist :=
              zip_with fmul
                ((λ l, fpow l (of_Q (1 # 2))) <$> lstar)
                ((λ t, fpow (fdiv (of_Q (2783 # 10)) t) (of_Q 2%Q)) <$> temp_dist) in
            let distributions := <["rdisk_bb" := rdisk_bb_dist]> distributions in
            let disk_r :=
              reduce_into (param_sample_probs self) "rdisk_bb" rdisk_bb_dist disk_r in
            Ok (disk_r, distributions)
        end
    end
  else Ok (disk_r, distributions).

(** *** [Result.disk_r_results] *)

Fixpoint disk_r_results_loop (self : Fit) (tot : list F) (i : nat)
    (comps : list string)
    (disk_r : list (gmap string F)) (distributions : list (gmap string (list F)))
    : Res (list (gmap string F) * list (gmap string (list F))) :=
  match comps with
  | [] => Ok (disk_r, distributions)
  | comp :: rest =>
      if bool_decide (comp ∈ models_disk_r cfg) then
        '(disk_r_one, dist_one) ← disk_r_results_one self tot i;
        disk_r_results_loop self tot (S i) rest (disk_r ++ [disk_r_one])
                            (distributions ++ [dist_one])
      else disk_r_results_loop self tot (S i) rest disk_r distributions
  end.

Definition disk_r_results (self : Fit) (tot : list F) :=
  disk_r_results_loop self tot 0 (model_comps self) [] [].










(** ** [Result.get] *)

(** The result of [fitting.concat_obs]. *)
Record ConcatObs := {
  co_fnujy : list F;
  co_e_fnujy : list F;
  co_upperlim : Ext;
  co_filters_ignore : Ext;
  co_ispec : list Z;
  co_nel : list nat;
  co_wavelengths : list F;
  co_filters : list string;
  co_bibcode : Ext;
}.

(** The rest of the package and the third-party libraries. *)
Record Externals := {
  (* photometry.Photometry.read_sdb_file: None if the file has no photometry *)
  read_phot : FS → string → option Ext;
  (* utils.get_sdb_keywords and the entries plx_value and plx_err *)
  get_sdb_keywords : FS → string → Ext;
  plx_value : Ext → option F;
  plx_err : Ext → option F;
  (* spectrum.ObsSpectrum.read_sdb_file(..,module_split=True,nspec=1) *)
  read_spec : FS → string → option (list Ext);
  (* model.get_models and model.models_info *)
  get_models : list Ext → list string → Ext * Ext;
  models_info : Ext → Ext;
  info_ndim : Ext → nat;                               (* model_info['ndim'] *)
  info_parameters : Ext → list string;                 (* model_info['parameters'] *)
  models_parameters : Ext → list (list string);        (* comp[0].parameters, per comp *)
  spec_models : Ext → list (list (list F → F));        (* see [Fit] *)
  (* fitting.multinest: what the sampler does to the files, and when it ends *)
  multinest : list Ext → Ext → string → FS * Q → FS * Q;
  (* pmn.Analyzer, get_stats() and data *)
  Analyzer : FS → string → nat → Ext;
  an_evidence : Ext → Q;                               (* ['global evidence'] *)
  an_marginals : Ext → list (F * F);                   (* median and sigma *)
  an_data : Ext → list (list F);
  (* np.random.randint(0,high,size) and truncnorm.rvs(lo,inf,loc,scale,size) *)
  randint : nat → nat → list nat;
  truncnorm_rvs : F → F → F → nat → list F;
  concat_obs : list Ext → ConcatObs;
  (* model.model_fluxes and fitting.residual (first component) *)
  model_fluxes : Ext → list F → list nat → list F * list (list F);
  residual : list F → list Ext → Ext → list F;
  (* photometry.Photometry(filters=filter.Filter.all) *)
  p_all : Ext;
  p_all_nphot : nat;
  p_all_filters : Ext;
  (* the spectra of lines 340-372: comp_spectra, star_spec, disk_spec *)
  spectra : Ext → list (list F) → list Tag → Ext * option Ext * option Ext;
  (* fitting.pmn_pc along an axis of a 2-d and of a 3-d array *)
  pmn_pc2 : list F → list (list F) → list F → nat → list F * list F * list F;
  pmn_pc3 : list F → list (list (list F)) → list F → nat
            → list (list F) * list (list F) * list (list F);
  (* fitting.sort_evidence *)
  sort_evidence : list Q → list nat → list nat;
}.

Variable ext : Externals.

(** [np.take(a, idx)] on a vector: negative indices count from the end. *)
Definition np_take (a : list F) (idx : list Z) : Res (list F) :=
  mapM (λ i : Z,
          if decide (0 ≤ i)%Z then index a (Z.to_nat i)
          else if decide (- Z.of_nat (length a) ≤ i)%Z
               then index a (Z.to_nat (Z.of_nat (length a) + i))
               else Raise IndexError) idx.

(** [glob.glob(base+'*')] selects the paths that extend [base] within
    its directory; [base] is taken to hold none of the characters that
    [glob] reads as a pattern. *)
Definition glob_star (base path : string) : bool :=
  String.prefix base path &&
  negb (contains "/" (String.substring (String.length base)
                        (String.length path - String.length base) path)).

(** [os.remove] on the paths that [glob] found, one after the other; a
    directory among them stops the loop with an error. *)
Fixpoint remove_loop (found : list (string * File)) : M () :=
  match found with
  | [] => retM ()
  | (p, f) :: rest =>
      match f_content f with
      | Directory => raise (IsADirectoryError p)
      | _ =>
          let! fs := the_fs in
          let! _ := set_fs (delete p fs) in
          remove_loop rest
      end
  end.

(** [Result.delete_multinest].  The paths come in the order in which the
    file system lists them. *)
Definition delete_multinest (pmn_base : string) : M () :=
  let! _ := emit (EvRemove pmn_base) in
  let! fs := the_fs in
  remove_loop (map_to_list (filter (λ kv, glob_star pmn_base kv.1 = true) fs)).

Definition run_multinest (obs : list Ext) (models : Ext) (dir : string) : M () :=
  let! _ := emit (EvMultinest dir) in
  λ w, let '(fs', t') := multinest ext obs models dir (fs w, now w) in
       (Ok (), {| fs := fs'; now := t'; trace := trace w |}).

Definition savefig (p : string) : M () :=
  let! _ := emit (EvSavefig p) in write_file p Data.

(** The test that precedes both plots: [plot = update_an], then true if
    the figure is missing or older than the sampler's output. *)
Definition plot_needed (update_an : bool) (figure : string) (mtime : Q) : M bool :=
  let! there := path_exists figure in
  if there then
    let! t := getmtime figure in
    retM (update_an || Qltb t mtime)
  else retM true.

(** The median and sigma of the first [n] marginals. *)
Fixpoint best_loop (marg : list (F * F)) (i n : nat) (best sig : list F)
    : Res (list F * list F) :=
  match n with
  | O => Ok (best, sig)
  | S n' =>
      m ← index marg i;
      best_loop marg (S i) n' (best ++ [m.1]) (sig ++ [m.2])
  end.

(** The rows of the posterior drawn at the random indices. *)
Fixpoint sample_loop (data : list (list F)) (randi : list nat)
    (samples : list (list F)) (probs : list F) : Res (list (list F) * list F) :=
  match randi with
  | [] => Ok (samples, probs)
  | i :: rest =>
      row ← index data i;
      let samples := samples ++ [drop 2 row] in
      w ← index row 0;
      sample_loop data rest samples (probs ++ [w])
  end.

(** The slices of one component, for every drawn row. *)
Definition comp_samples (data : list (list F)) (randi : list nat) (i0 nparam : nat)
    : Res (list (list F)) :=
  mapM (λ i, row ← index data i; Ok (slice row (i0 + 2) (i0 + nparam + 2))) randi.

(** The split of best fit and samples into components. *)
Fixpoint comp_loop (data : list (list F)) (randi : list nat) (best sig : list F)
    (comps : list (list string)) (i0 : nat)
    (acc : list (list string) * list (list F) * list (list F) * list (list (list F)))
    : Res (list (list string) * list (list F) * list (list F) * list (list (list F))) :=
  match comps with
  | [] => Ok acc
  | pars :: rest =>
      let '(cpars, cbest, csig, csamples) := acc in
      let nparam := length pars + 1 in
      comp_i_samples ← comp_samples data randi i0 nparam;
      comp_loop data randi best sig rest (i0 + nparam)
        (cpars ++ [pars], cbest ++ [slice best i0 (i0 + nparam)],
         csig ++ [slice sig i0 (i0 + nparam)], csamples ++ [comp_i_samples])
  end.

(** The star and the disk parameters and samples, gathered component by
    component (lines 260-281). *)
Fixpoint append_samples (acc : list (list F)) (j : nat) (n : nat)
    (comp_i : list (list F)) : Res (list (list F)) :=
  match n with
  | O => Ok acc
  | S n' =>
      row ← index acc j;
      x ← index comp_i j;
      append_samples (<[j := row ++ x]> acc) (S j) n' comp_i
  end.

Fixpoint split_loop (i : nat) (comps : list string) (tags : list Tag)
    (cbest : list (list F)) (csamples : list (list (list F)))
    (st dk : list string * list F * list (list F))
    : Res ((list string * list F * list (list F)) * (list string * list F * list (list F))) :=
  match comps with
  | [] => Ok (st, dk)
  | comp :: rest =>
      tag ← index tags i;
      let '(cs, ps, ss) := match tag with Star => st | Disk => dk end in
      b ← index cbest i;
      comp_i ← (if n_samples cfg is O then Ok [] else index csamples i);
      ss ← append_samples ss 0 (n_samples cfg) comp_i;
      let upd := (cs ++ [comp], ps ++ b, ss) in
      match tag with
      | Star => split_loop (S i) rest tags cbest csamples upd dk
      | Disk => split_loop (S i) rest tags cbest csamples st upd
      end
  end.

(** [lo,x,hi = pmn_pc(probs,dist,[16.0,50.0,84.0],axis=1)] on a 2-d array
    and the two uncertainties [x - lo] and [hi - x].  A 2-d array of
    shape (k, n_samples) is kept as the list of its columns [a[:,i]]. *)
Definition reduce2 (probs : list F) (dist : list (list F))
    : list F * list F * list F :=
  let '(lo, x, hi) := pmn_pc2 ext probs dist pcts 1 in
  (x, zip_with fsub x lo, zip_with fsub hi x).

(** The same along [axis=2] of a 3-d array, kept as the list of its
    slices [a[:,:,i]]. *)
Definition reduce3 (probs : list F) (dist : list (list (list F)))
    : list (list F) * list (list F) * list (list F) :=
  let '(lo, x, hi) := pmn_pc3 ext probs dist pcts 2 in
  (x, zip_with (zip_with fsub) x lo, zip_with (zip_with fsub) hi x).

(** Photometry in all filters of the components [comps] for every
    parameter sample, reduced; [None] without components. *)
Definition phot_all (probs : list F) (comps : list string) (samples : list (list F))
    : option (list (list F) * (list F * list F * list F)) :=
  if decide (0 < length comps) then
    let m := (get_models ext [p_all ext] comps).1 in
    let dist := (λ par, (model_fluxes ext m par [p_all_nphot ext]).1) <$> samples in
    Some (dist, reduce2 probs dist)
  else None.

(** The attributes set for a reduced photometry [name]. *)
Definition phot_attrs (name : string) (r : list F * list F * list F)
    : list (string * Value) :=
  let '(x, lo, hi) := r in
  [(name, VArr1 x); (name +:+ "_1sig_lo", VArr1 lo); (name +:+ "_1sig_hi", VArr1 hi)].

Definition set_attrs (self : Obj) (l : list (string * Value)) : Obj :=
  foldl (λ o kv, <[kv.1 := kv.2]> o) self l.

(** Lines 155-377 of [get]: everything between the first corner plot and
    the second, as the list of attribute assignments in source order. *)
Definition derive (model_comps : list string) (obs : list Ext) (kw mods plmods info a : Ext)
    : Res (list (string * Value)) :=
  let n := n_samples cfg in
  (* parameter names and best fit *)
  let evidence := an_evidence ext a in
  let parameters := info_parameters ext info in
  '(best, sig) ← best_loop (an_marginals ext a) 0 (length parameters) [] [];
  (* tuple of multinest samples to use for uncertainty estimation *)
  let data := an_data ext a in
  let randi := randint ext (length data) n in
  '(param_samples, probs) ← sample_loop data randi [] [];
  (* as above, split into components *)
  '(cpars, cbest, csig, csamples) ←
    comp_loop data randi best sig (models_parameters ext mods) 0 ([], [], [], []);
  (* a truncated normal distribution of parallaxes *)
  let plx :=
    match plx_err ext kw, plx_value ext kw with
    | Some e, Some v =>
        if flt (of_Q 0%Q) v then
          Some (truncnorm_rvs ext (fmul (of_Q (-1)%Q) (fdiv v e))
                  (fdiv v (of_Q 1000%Q)) (fdiv e (of_Q 1000%Q)) n)
        else None
    | _, _ => None
    end in
  (* observed fluxes *)
  let co := concat_obs ext obs in
  spec_norm ← np_take (best ++ [of_Q 1%Q]) (co_ispec co);
  let obs_fnujy := zip_with fmul (co_fnujy co) spec_norm in
  let obs_e_fnujy := zip_with fmul (co_e_fnujy co) spec_norm in
  (* model photometry and residuals *)
  let fluxes := (λ par, model_fluxes ext mods par (co_nel co)) <$> param_samples in
  let model_dist := fst <$> fluxes in
  let model_comp_dist := snd <$> fluxes in
  let '(model_fnujy, model_fnujy_lo, model_fnujy_hi) := reduce2 probs model_dist in
  let '(model_comp_fnujy, model_comp_lo, model_comp_hi) := reduce3 probs model_comp_dist in
  (* fitting results *)
  let residuals := residual ext best obs mods in
  let chisq := np_sum ((λ r, fmul r r) <$> residuals) in
  let dof := (Z.of_nat (length (co_wavelengths co)) - Z.of_nat (length parameters) - 1)%Z in
  (* star/disk photometry for all filters *)
  tags ← classify cfg model_comps [];       (* self.star_or_disk *)
  '(st, dk) ← split_loop 0 model_comps tags cbest csamples
                ([], [], replicate n []) ([], [], replicate n []);
  let star_phot := phot_all probs st.1.1 st.2 in
  let disk_phot := phot_all probs dk.1.1 dk.2 in
  (* total photometry *)
  let m_all := (get_models ext [p_all ext] model_comps).1 in
  let all_phot_dist :=
    (λ par, (model_fluxes ext m_all par [p_all_nphot ext]).1) <$> param_samples in
  let all_phot := reduce2 probs all_phot_dist in
  (* spectra *)
  let '(comp_spectra, star_spec, disk_spec) := spectra ext plmods cbest tags in
  (* model-specifics, also combined into a single tuple *)
  let fit := {|
    model_comps := model_comps; comp_parameters := cpars;
    best_params := best; best_params_1sig := sig;
    comp_best_params := cbest; comp_best_params_1sig := csig;
    comp_param_samples := csamples; param_sample_probs := probs;
    pl_models := spec_models ext plmods; parallax := plx;
    kw_plx_value := plx_value ext kw; kw_plx_err := plx_err ext kw |} in
  '(star, star_dists, tot) ← star_results fit (zeros n);
  '(disk_r, disk_r_dists) ← disk_r_results fit tot;
  let distributions : gmap string Value :=
    list_to_map
      ([("lstar_1pc_tot", VArr1 tot)]
       ++ match plx with Some d => [("parallax", VArr1 d)] | None => [] end
       ++ [("model_fnujy", VArr2 model_dist);
           ("model_comp_fnujy", VArr3 model_comp_dist)]
       ++ match star_phot with Some d => [("star_phot", VArr2 d.1)] | None => [] end
       ++ match disk_phot with Some d => [("disk_phot", VArr2 d.1)] | None => [] end
       ++ [("all_phot", VArr2 all_phot_dist)]) in
  Ok ([("evidence", VQ evidence);
       ("parameters", VStrs parameters);
       ("best_params", VArr1 best);
       ("best_params_1sig", VArr1 sig);
       ("param_samples", VArr2 param_samples);
       ("param_sample_probs", VArr1 probs);
       ("n_parameters", VInt (Z.of_nat (length parameters)));
       ("comp_best_params", VArr2 cbest);
       ("comp_best_params_1sig", VArr2 csig);
       ("comp_parameters", VTuple (VStrs <$> cpars));
       ("comp_param_samples", VArr3 csamples);
       ("distributions", VDict distributions);
       ("obs_upperlim", VExt (co_upperlim co));
       ("filters_ignore", VExt (co_filters_ignore co));
       ("wavelengths", VArr1 (co_wavelengths co));
       ("filters", VStrs (co_filters co));
       ("obs_bibcode", VExt (co_bibcode co));
       ("obs_fnujy", VArr1 obs_fnujy);
       ("obs_e_fnujy", VArr1 obs_e_fnujy);
       ("model_fnujy", VArr1 model_fnujy);
       ("model_fnujy_1sig_lo", VArr1 model_fnujy_lo);
       ("model_fnujy_1sig_hi", VArr1 model_fnujy_hi);
       ("model_comp_fnujy", VArr2 model_comp_fnujy);
       ("model_comp_fnujy_1sig_lo", VArr2 model_comp_lo);
       ("model_comp_fnujy_1sig_hi", VArr2 model_comp_hi);
       ("residuals", VArr1 residuals);
       ("chisq", VFloat chisq);
       ("dof", VInt dof)]
      ++ match star_phot with
         | Some d => phot_attrs "star_phot" d.2
         | None => [("star_phot", VNone)]
         end
      ++ match disk_phot with
         | Some d => phot_attrs "disk_phot" d.2
         | None => [("disk_phot", VNone)]
         end
      ++ [("all_filters", VExt (p_all_filters ext));
          ("all_phot_dist", VArr2 all_phot_dist)]
      ++ phot_attrs "all_phot" all_phot
      ++ [("comp_spectra", VExt comp_spectra);
          ("star_spec", VOpt (VExt <$> star_spec));
          ("disk_spec", VOpt (VExt <$> disk_spec));
          ("star", VTuple (VDictF <$> star));
          ("star_distributions", VTuple (VDictA <$> star_dists));
          ("disk_r", VTuple (VDictF <$> disk_r));
          ("disk_r_distributions", VTuple (VDictA <$> disk_r_dists));
          ("main_results", VTuple (VDictF <$> (star ++ disk_r)))]).

(** The test of lines 84-88: is there a pickle more recent than the
    photometry file and than the sampler's output? *)
Definition pickle_is_fresh (self : Obj) (update_mn update_an : bool) : M bool :=
  if negb update_mn && negb update_an then
    let! pickle := attr_str self "pickle" in
    let! there := path_exists pickle in
    if there then
      let! tp := getmtime pickle in
      let! rawphot := attr_str self "rawphot" in
      let! tr := getmtime rawphot in
      if Qltb tr tp then
        let! tp := getmtime pickle in
        let! pmn_base := attr_str self "pmn_base" in
        let! tm := getmtime (pmn_base +:+ "phys_live.points") in
        retM (Qltb tm tp)
      else retM false
    else retM false
  else retM false.

(** Lines 96-416: the fit itself.  The result is Python's [None] when the
    file holds no photometry. *)
Definition get_fresh (self : Obj) (model_comps : list string)
    (update_mn update_an nospec : bool) : M (option Obj) :=
  let! rawphot := attr_str self "rawphot" in
  let! pmn_dir := attr_str self "pmn_dir" in
  let! pmn_base := attr_str self "pmn_base" in
  let! pickle := attr_str self "pickle" in
  (* observations *)
  let! _ := emit (EvReadPhot rawphot) in
  let! fs0 := the_fs in
  match read_phot ext fs0 rawphot with
  | None => retM None
  | Some p =>
      let kw := get_sdb_keywords ext fs0 rawphot in
      let obs :=
        if nospec then [p]
        else match read_spec ext fs0 rawphot with
             | Some s => [p] ++ s
             | None => [p]
             end in
      (* models *)
      let '(mods, plmods) := get_models ext obs model_comps in
      let info := models_info ext mods in
      (* if we want to re-run multinest, delete previous output first *)
      let marker := pmn_base +:+ "phys_live.points" in
      let! there := path_exists marker in
      let! run_mn :=
        (if there then
           let! tr := getmtime rawphot in
           let! tm := getmtime marker in
           retM (update_mn || Qltb tm tr)
         else retM update_mn) in
      let! _ := (if run_mn then delete_multinest pmn_base else retM ()) in
      (* go there, multinest only takes 100 char paths *)
      let! _ := run_multinest obs mods pmn_dir in
      let! fs1 := the_fs in
      let a := Analyzer ext fs1 pmn_base (info_ndim ext info) in
      (* when the multinest results were finished *)
      let! mtime := getmtime marker in
      (* parameter corner plot if needed *)
      let corner_plot := pmn_base +:+ "corner.png" in
      let! plot := plot_needed update_an corner_plot mtime in
      let! _ := (if plot then savefig corner_plot else retM ()) in
      let! derived := lift (derive model_comps obs kw mods plmods info a) in
      (* corner plot of distributions if needed *)
      let distributions_plot := pmn_base +:+ "distributions.png" in
      let! plot := plot_needed update_an distributions_plot mtime in
      let! _ := (if plot then savefig distributions_plot else retM ()) in
      (* save for later in a pickle, updating the mtime to now *)
      let! t := the_time in
      let self :=
        set_attrs self
          ([("obs", VTuple (VExt <$> obs));
            ("obs_keywords", VExt kw);
            ("models", VExt mods);
            ("pl_models", VExt plmods);
            ("model_info", VExt info);
            ("analyzer", VExt a);
            ("mtime", VQ mtime);
            ("corner_plot", VStr corner_plot)]
           ++ derived
           ++ [("distributions_plot", VStr distributions_plot);
               ("models", VStr "");
               ("pl_models", VStr "");
               ("mtime", VQ t)]) in
      let! _ := pickle_dump pickle self in
      retM (Some self)
  end.

(** The function [get] as written, without its decorator. *)
Definition get_wrapped (rawphot : string) (model_comps : list string)
    (update_mn update_an nospec : bool) : M (option Obj) :=
  let! self := Result_new rawphot model_comps in
  (* see if we have a pickle of results to return *)
  let! fresh := pickle_is_fresh self update_mn update_an in
  if fresh then
    let! pickle := attr_str self "pickle" in
    let! self := pickle_load pickle in
    (* update object with local file info before returning *)
    let! self := file_info self rawphot model_comps in
    retM (Some self)
  else get_fresh self model_comps update_mn update_an nospec.

(** *** The memo of [get]

    [get] is decorated with [@lru_cache(maxsize=128)].  Within a process, a
    call whose arguments equal those of an earlier call that is still
    among the 128 most recently used is answered with the result of that
    call, and the function is not run.  A result [None] is kept like any
    other; a call that raises leaves no entry.

    - A call is identified with the values of its five parameters.
      [lru_cache] also tells apart the ways of writing a call (an argument
      given by position, by keyword, or left to its default): [Key] is the
      key of calls written in one way.
    - [model_comps] is a tuple: a list cannot be a key.
    - The memo hands out the object of the earlier call itself; callers
      are taken not to assign to it.
    - The same decorator on [__init__] and [file_info] never answers:
      their first argument is an object made for the call, or just
      unpickled. *)
Definition Key : Type := string * list string * bool * bool * bool.

Definition maxsize : nat := 128.

(** The entries of the memo, most recently used first. *)
Record Process := { proc_world : World; proc_memo : list (Key * option Obj) }.

Fixpoint memo_find (k : Key) (m : list (Key * option Obj)) : option (option Obj) :=
  match m with
  | [] => None
  | (k', v) :: m' => if decide (k = k') then Some v else memo_find k m'
  end.

Fixpoint memo_drop (k : Key) (m : list (Key * option Obj)) : list (Key * option Obj) :=
  match m with
  | [] => []
  | (k', v) :: m' => if decide (k = k') then memo_drop k m' else (k', v) :: memo_drop k m'
  end.

Definition get (rawphot : string) (model_comps : list string)
    (update_mn update_an nospec : bool) (p : Process)
    : Res (option Obj) * Process :=
  let k : Key := (rawphot, model_comps, update_mn, update_an, nospec) in
  match memo_find k (proc_memo p) with
  | Some v =>
      (Ok v, {| proc_world := proc_world p; proc_memo := (k, v) :: memo_drop k (proc_memo p) |})
  | None =>
      match get_wrapped rawphot model_comps update_mn update_an nospec (proc_world p) with
      | (Ok v, w') =>
          (Ok v, {| proc_world := w'; proc_memo := take maxsize ((k, v) :: proc_memo p) |})
      | (Raise e, w') => (Raise e, {| proc_world := w'; proc_memo := proc_memo p |})
      end
  end.

(** What a caller sees of a call: its result and the world after it. *)
Definition outcome {A} (out : Res A * Process) : Res A * World :=
  (out.1, proc_world out.2).





(** [out] is the pickled object found in [w1], with its file information
    refreshed, and the pickle was loaded to get it. *)
Definition returns_pickle (w1 : World) (rawphot : string) (model_comps : list string)
    (out : Res (option Obj) * World) : Prop :=
  ∃ fp stored tags,
    fs w1 !! pickle_of cfg rawphot model_comps = Some fp ∧
    f_content fp = Pickled stored ∧
    classify cfg model_comps [] = Ok tags ∧
    out = (Ok (Some (refreshed stored rawphot model_comps tags)),
           loaded (pickle_of cfg rawphot model_comps) w1).

Definition is_load (e : Event) : Prop := ∃ p, e = EvPickleLoad p.
Definition is_multinest (e : Event) : Prop := ∃ d, e = EvMultinest d.

(** A computation only appends to the trace, and what it appends
    satisfies [P]. *)
Definition appends {A} (P : Event → Prop) (m : M A) : Prop :=
  ∀ w, ∃ l, trace (m w).2 = trace w ++ l ∧ Forall P l.


(** ** [fit.py]: [fit_results] *)

(** [result.Result(file,f,update=update,nospec=nospec)].  [__init__] takes
    [rawphot] and [model_comps] and nothing else: a call that passes
    further keywords raises before the body is run. *)
Definition Result_call (rawphot : string) (model_comps : list string)
    (kwargs : list (string * bool)) : M Obj :=
  match kwargs with
  | [] => Result_new rawphot model_comps
  | _ :: _ => raise TypeError
  end.

(** [r.evidence]. *)
Definition evidence_of (r : Obj) : Res Q :=
  match r !! "evidence" with
  | Some (VQ q) => Ok q
  | _ => Raise (AttributeError "evidence")
  end.

(** Lines 46-50, once [res] is appended: does the loop break? *)
Definition stops (f : list string) (results : list Obj) : Res bool :=
  if decide (1 < length f) then
    evs ← mapM evidence_of results;
    match evs with
    | [] => Raise ValueError
    | _ => Ok (negb (Qeq_bool (np_max evs) (default 0%Q (last evs))))
    end
  else Ok false.

(** The loop over the model combinations; the result is [None] for
    [return None]. *)
Fixpoint fit_loop (file : string) (update nospec : bool)
    (fit : list (list string)) (results : list Obj) : M (option (list Obj)) :=
  match fit with
  | [] => retM (Some results)
  | f :: rest =>
      let! res := Result_call file f [("update", update); ("nospec", nospec)] in
      if hasattr (Some res) "obs" then
        let results := results ++ [res] in
        (* if evidence didn't go up with extra model component, stop *)
        let! stop := lift (stops f results) in
        if stop then retM (Some results)
        else fit_loop file update nospec rest results
      else retM None
  end.

(** [r.model_info['ndim']]. *)
Definition ndim_of (r : Obj) : Res nat :=
  match r !! "model_info" with
  | Some (VExt info) => Ok (info_ndim ext info)
  | _ => Raise (AttributeError "model_info")
  end.

Fixpoint sort_loop (results : list Obj) (ev : list Q) (ndim : list nat)
    : Res (list Q * list nat) :=
  match results with
  | [] => Ok (ev, ndim)
  | r :: rest =>
      n ← ndim_of r;
      e ← evidence_of r;
      sort_loop rest (ev ++ [e]) (ndim ++ [n])
  end.

(** [result.sort_results]. *)
Definition sort_results (results : list Obj) : Res (list nat) :=
  '(ev, ndim) ← sort_loop results [] [];
  Ok (sort_evidence ext ev ndim).

Definition fit_results (file : string) (update sort nospec : bool)
    : M (option (list Obj)) :=
  let fit := fitting_models cfg in
  let! r := fit_loop file update nospec fit [] in
  match r with
  | None => retM None
  | Some results =>
      if sort then
        let! idx := lift (sort_results results) in
        let! sorted := lift (mapM (index results) idx) in
        retM (Some sorted)
      else retM (Some results)
  end.

(** ** [www.py] *)

(** [index]: the page is rendered from the results by [plotting], [bokeh]
    and [jinja2], which are not part of the sources and are taken to
    return, and written to [file]. *)
Definition www_index (results : list Obj) (file : string) : M () :=
  let! _ := emit (EvWriteHtml file) in write_file file Data.

(** The modification times of the pickles of the results, in order. *)
Fixpoint pkltimes (results : list Obj) : M (list Q) :=
  match results with
  | [] => retM []
  | r :: rest =>
      let! pickle := attr_str r "pickle" in
      let! t := getmtime pickle in
      let! ts := pkltimes rest in
      retM (t :: ts)
  end.

(** [www_all]. *)
Definition www_all (results : list Obj) (update : bool) : M () :=
  (* see whether index.html needs updating (unless update enforced) *)
  let! r0 := lift (index results 0) in
  let! path := attr_str r0 "path" in
  let index_file := path +:+ "/index.html" in
  let! there := path_exists index_file in
  if there then
    let! pkltime := pkltimes results in
    let! t := getmtime index_file in
    if Qltb (np_max pkltime) t && negb update then retM ()
    else www_index results index_file
  else www_index results index_file.

(** The stopping rule in the words of the specification, on the
    evidences: with more than one component, stop when the newest
    evidence fails to increase over that of the candidate just before
    it. *)
Definition stops_spec (f : list string) (evs : list Q) : bool :=
  bool_decide (1 < length f) &&
  match reverse evs with
  | newest :: previous :: _ => negb (Qltb previous newest)
  | _ => false
  end.

End Sdf.

(** ** A small concrete world, for examples

    Floats are read as rationals; a power takes the integer part of its
    exponent and the square root is left trivial.  External objects are
    numbers. *)

Module Toy.

#[global] Instance QFloat : Float Q := {|
  of_Q q := q;
  fadd := Qplus;
  fsub := Qminus;
  fmul := Qmult;
  fdiv := Qdiv;
  fpow a b := Qred (Qpower a (Qfloor b));
  fsqrt a := a;
  flt := Qltb;
|}.

#[global] Instance QFloatZero : FloatZero Q :=
  {| fadd_zero := eq_refl; flt_zero := eq_refl |}.

Definition cfg : Config := {|
  models_star := ["phoenix_m"];
  models_disk := ["modbb_disk_r"];
  models_disk_r := ["modbb_disk_r"];
  fitting_models := [["phoenix_m"]; ["phoenix_m"; "modbb_disk_r"];
                     ["phoenix_m"; "modbb_disk_r"; "modbb_disk_r"]];
  pmn_dir_suffix := "-mnest";
  pmn_model_suffix := "_";
  n_samples := 2;
|}.

Definition rawphot : string := "/sdb/t1/sdb-v1-17-rawphot.txt".
Definition pmn_dir : string := "/sdb/t1/sdb-v1-17-mnest".
Definition pmn_base : string := "/sdb/t1/sdb-v1-17-mnest/phoenix_m_".

Definition file (t : Q) : File (F:=Q) (Ext:=nat) :=
  {| f_mtime := t; f_content := Data |}.

(** A stored result: only the attributes of interest. *)
Definition stored : gmap string (Value (F:=Q) (Ext:=nat)) :=
  <["evidence" := VQ (-12)%Q]>
  (<["model_comps" := VStrs ["kurucz"]]>
  (<["rawphot" := VStr "/old/place/sdb-v1-17-rawphot.txt"]>
  (<["obs" := VTuple [VExt 1%nat]]> ∅))).

(** The photometry file, the sampler's marker and a more recent pickle. *)
Definition fs_cached : gmap string (File (F:=Q) (Ext:=nat)) :=
  <[rawphot := file 5%Q]>
  (<[pmn_dir := {| f_mtime := 6%Q; f_content := Directory |}]>
  (<[pmn_base +:+ "phys_live.points" := file 7%Q]>
  (<[pmn_base +:+ ".pkl" := {| f_mtime := 9%Q; f_content := Pickled stored |}]> ∅))).

(** A configuration that lists one model both as star and as disk. *)
Definition cfg_overlap : Config := {|
  models_star := ["phoenix_m"; "bb"];
  models_disk := ["modbb_disk_r"; "bb"];
  models_disk_r := ["modbb_disk_r"];
  fitting_models := [["bb"]];
  pmn_dir_suffix := "-mnest";
  pmn_model_suffix := "_";
  n_samples := 2;
|}.

Definition world (fs : gmap string File) : World (F:=Q) (Ext:=nat) :=
  {| fs := fs; now := 10%Q; trace := [] |}.

(** A stand-in for the percentiles: the least sample, the mean of the
    least and the greatest, and the greatest. *)
Definition qmin (l : list Q) : Q :=
  foldr (λ a b, if Qle_bool a b then a else b) (hd 0%Q l) l.
Definition qmax (l : list Q) : Q :=
  foldr (λ a b, if Qle_bool a b then b else a) (hd 0%Q l) l.

Definition phys : Physics (F:=Q) := {|
  pmn_pc1 probs dist pc :=
    (qmin dist, Qred ((qmin dist + qmax dist) / 2), qmax dist)%Q;
  np_pi := 3%Q;
  pc_to_m := 1%Q;
  L_sun_to_W := 1%Q;
  R_sun_to_m := 1%Q;
  cfg_ssr := 1%Q;
|}.

(** A photometry file without photometry, no spectrum, and a sampler that
    leaves its marker. *)
Definition ext : Externals (F:=Q) (Ext:=nat) := {|
  read_phot fs p := None;
  get_sdb_keywords fs p := 0%nat;
  plx_value kw := None;
  plx_err kw := None;
  read_spec fs p := None;
  get_models obs comps := (0%nat, 0%nat);
  models_info m := 0%nat;
  info_ndim i := 0%nat;
  info_parameters i := [];
  models_parameters m := [];
  spec_models m := [];
  multinest obs m dir st := st;
  Analyzer fs base n := 0%nat;
  an_evidence a := 0%Q;
  an_marginals a := [];
  an_data a := [];
  randint high size := replicate size 0%nat;
  truncnorm_rvs lo loc scale size := replicate size loc;
  concat_obs obs := {| co_fnujy := []; co_e_fnujy := []; co_upperlim := 0%nat;
                       co_filters_ignore := 0%nat; co_ispec := []; co_nel := [];
                       co_wavelengths := []; co_filters := []; co_bibcode := 0%nat |};
  model_fluxes m par nel := ([], []);
  residual best obs m := [];
  p_all := 0%nat;
  p_all_nphot := 0%nat;
  p_all_filters := 0%nat;
  spectra pl best tags := (0%nat, None, None);
  pmn_pc2 probs dist pc axis := ([], [], []);
  pmn_pc3 probs dist pc axis := ([], [], []);
  sort_evidence ev ndim := seq 0 (length ev);
|}.



(** A fit of two stars and a disk, with two samples.  Every component has
    one parameter and its normalisation; the irradiance of a component is
    the first entry of its sample. *)
Definition comps3 : list string := ["phoenix_m"; "phoenix_m"; "modbb_disk_r"].

Definition fit (n_stars : nat) (plx : option (list Q)) : Fit (F:=Q) := {|
  model_comps := drop (2 - n_stars) comps3;
  comp_parameters := drop (2 - n_stars) [["Teff"]; ["Teff"]; ["log_Temp"]];
  best_params := drop (2 * (2 - n_stars)) [5800; 1; 4000; 2; 2; 3]%Q;
  best_params_1sig := drop (2 * (2 - n_stars)) [100; 1 # 10; 50; 1 # 5; 1; 1 # 2]%Q;
  comp_best_params := drop (2 - n_stars) [[5800; 1]; [4000; 2]; [2; 3]]%Q;
  comp_best_params_1sig :=
    drop (2 - n_stars) [[100; 1 # 10]; [50; 1 # 5]; [1; 1 # 2]]%Q;
  comp_param_samples :=
    drop (2 - n_stars)
      [[[6; 1]; [8; 1]]; [[2; 2]; [4; 2]]; [[2; 3]; [3; 3]]]%Q;
  param_sample_probs := [1; 1]%Q;
  pl_models := drop (2 - n_stars) [[λ par, hd 0%Q par]; [λ par, hd 0%Q par];
                                   [λ par, hd 0%Q par]];
  parallax := plx;
  kw_plx_value := match plx with Some _ => Some 100%Q | None => None end;
  kw_plx_err := match plx with Some _ => Some 10%Q | None => None end;
|}.

(** A result with observations and the evidence [q]. *)
Definition result_with (q : Q) : gmap string (Value (F:=Q) (Ext:=nat)) :=
  <["evidence" := VQ q]> (<["obs" := VTuple [VExt 1%nat]]> ∅).

(** A process that has made no call yet. *)
Definition process (fs : gmap string File) : Process (F:=Q) (Ext:=nat) :=
  {| proc_world := world fs; proc_memo := [] |}.

(** The calls of the examples: one model, no spectra, [update_mn] as given. *)
Definition key (update_mn : bool) : Key :=
  (rawphot, ["phoenix_m"], update_mn, false, false).

(** What the first call returns on [fs_cached], and the process after it. *)
Definition returned : gmap string (Value (F:=Q) (Ext:=nat)) :=
  refreshed cfg stored rawphot ["phoenix_m"] [Star].

Definition after_load : Process (F:=Q) (Ext:=nat) :=
  {| proc_world := loaded (pickle_of cfg rawphot ["phoenix_m"]) (world fs_cached);
     proc_memo := [(key false, Some returned)] |}.

Definition after_forced : Process (F:=Q) (Ext:=nat) :=
  {| proc_world := {| fs := fs_cached; now := 10%Q;
                      trace := [EvReadPhot rawphot] |};
     proc_memo := [(key true, None)] |}.

(** The photometry file is written again, at time 20. *)
Definition touched (p : Process (F:=Q) (Ext:=nat)) : Process :=
  {| proc_world := {| fs := <[rawphot := file 20%Q]> (fs (proc_world p));
                 now := 21%Q;
                 trace := trace (proc_world p) |};
     proc_memo := proc_memo p |}.

End Toy.

(** * Properties *)

Example pmn_base_ok : pmn_base_of Toy.cfg Toy.rawphot ["phoenix_m"] = Toy.pmn_base.
Proof. reflexivity. Qed.

(** [rstrip] takes a set of characters: an identifier that ends in one of
    them loses more than the suffix. *)
Example id_of_star : id_of "/sdb/t1/star-rawphot.txt" = "s".
Proof. reflexivity. Qed.

(** ** Classification of the components *)

Section Classification.
Variable cfg : Config.

Lemma classify_app comps acc :
  classify cfg comps acc = (acc ++.) <$> classify cfg comps [].
Proof.
  revert acc. induction comps as [|c comps IH]; intros acc; simpl.
  - by rewrite app_nil_r.
  - repeat case_bool_decide; try done.
    + rewrite (IH (acc ++ [Star])), (IH [Star]).
      destruct (classify cfg comps []); simpl; [|done]. by rewrite <- app_assoc.
    + rewrite (IH (acc ++ [Disk])), (IH [Disk]).
      destruct (classify cfg comps []); simpl; [|done]. by rewrite <- app_assoc.
Qed.

Lemma classify_ok comps :
  Forall (λ c, is_Some (tag_of cfg c)) comps →
  ∃ tags, classify cfg comps [] = Ok tags ∧
          Forall2 (λ c t, tag_of cfg c = Some t) comps tags.
Proof.
  induction 1 as [|c comps [t Ht] _ (tags & IH & Htags)]; simpl.
  - exists []. by split.
  - exists (t :: tags). unfold tag_of in Ht.
    repeat case_bool_decide; simplify_eq; rewrite classify_app, IH; simpl;
      (split; [done|constructor; [|done]]); unfold tag_of;
      repeat case_bool_decide; done.
Qed.

Lemma classify_raise comps :
  Exists (λ c, tag_of cfg c = None) comps →
  ∃ c, classify cfg comps [] = Raise (SdfError c) ∧ c ∈ comps ∧ tag_of cfg c = None.
Proof.
  induction comps as [|c comps IH]; intros Hex; [by apply Exists_nil in Hex|].
  simpl. destruct (tag_of cfg c) as [t|] eqn:Ht.
  - apply Exists_cons in Hex as [?|Hex]; [congruence|].
    destruct (IH Hex) as (c' & Hc' & ? & ?). exists c'.
    unfold tag_of in Ht. repeat case_bool_decide; simplify_eq;
      rewrite classify_app, Hc'; (split; [done|split; [by right|done]]).
  - exists c. unfold tag_of in Ht. repeat case_bool_decide; simplify_eq.
    split; [done|]. split; [by left|]. unfold tag_of. by repeat case_bool_decide.
Qed.

End Classification.

(** ** [file_info] *)

Section FileInfo.
Context {F : Type} `{FloatF : Float F} {Ext : Type}.
Variable cfg : Config.
Implicit Types (self stored : gmap string (Value (F:=F) (Ext:=Ext))).
Implicit Types (w : World (F:=F) (Ext:=Ext)).

Lemma file_info_run self rawphot comps w :
  file_info cfg self rawphot comps w =
  match classify cfg comps [] with
  | Ok tags => (Ok (refreshed cfg self rawphot comps tags), with_pmn_dir cfg rawphot w)
  | Raise e => (Raise e, w)
  end.
Proof.
  unfold file_info, bindM, lift, with_pmn_dir, path_exists, the_fs, retM.
  destruct (classify cfg comps []) as [tags|e]; [|done]. simpl.
  fold (path_of rawphot) (id_of rawphot). fold (pmn_dir_of cfg rawphot).
  case_bool_decide; done.
Qed.

Lemma refreshed_attrs self rawphot comps tags :
  let o := refreshed cfg self rawphot comps tags in
  o !! "model_comps" = Some (VStrs comps) ∧
  o !! "star_or_disk" = Some (VStrs (tag_str <$> tags)) ∧
  o !! "n_comps" = Some (VInt (Z.of_nat (length comps))) ∧
  o !! "rawphot" = Some (VStr rawphot) ∧
  o !! "path" = Some (VStr (path_of rawphot)) ∧
  o !! "id" = Some (VStr (id_of rawphot)) ∧
  o !! "pmn_dir" = Some (VStr (pmn_dir_of cfg rawphot)) ∧
  o !! "pmn_base" = Some (VStr (pmn_base_of cfg rawphot comps)) ∧
  o !! "pickle" = Some (VStr (pickle_of cfg rawphot comps)).
Proof. unfold refreshed. repeat split; by simplify_map_eq. Qed.

Lemma refreshed_other self rawphot comps tags name :
  name ∉ file_info_attrs →
  refreshed cfg self rawphot comps tags !! name = self !! name.
Proof.
  unfold file_info_attrs, refreshed. intros Hn.
  repeat (rewrite lookup_insert_ne; [|intros <-; apply Hn; set_solver]). done.
Qed.

(** The refreshed attributes do not depend on the object they are set on. *)
Lemma refreshed_same self stored rawphot comps tags name :
  name ∈ file_info_attrs →
  refreshed cfg stored rawphot comps tags !! name
  = refreshed cfg self rawphot comps tags !! name.
Proof.
  unfold file_info_attrs. intros Hn.
  repeat (apply elem_of_cons in Hn as [->|Hn]; [unfold refreshed; by simplify_map_eq|]).
  by apply elem_of_nil in Hn.
Qed.

Lemma tag_of_star c : c ∈ models_star cfg → tag_of cfg c = Some Star.
Proof. intros. unfold tag_of. by rewrite bool_decide_eq_true_2. Qed.

Lemma tag_of_disk c :
  c ∉ models_star cfg → c ∈ models_disk cfg → tag_of cfg c = Some Disk.
Proof.
  intros. unfold tag_of.
  rewrite bool_decide_eq_false_2 by done. by rewrite bool_decide_eq_true_2.
Qed.

Lemma tag_of_none c :
  c ∉ models_star cfg → c ∉ models_disk cfg → tag_of cfg c = None.
Proof. intros. unfold tag_of. by rewrite !bool_decide_eq_false_2. Qed.

(** C5, as the code has it.  When every component is in the star list or
    in the disk list, [file_info] succeeds and tags each of them once:
    [star] if it is in the star list, [disk] if it is in the disk list and
    not in the star list.  When some component is in neither list,
    [file_info] raises the configuration error for such a component and
    leaves the world as it was. *)
Theorem file_info_tags self rawphot comps w :
  (Forall (λ c, c ∈ models_star cfg ∨ c ∈ models_disk cfg) comps →
   ∃ o tags,
     file_info cfg self rawphot comps w = (Ok o, with_pmn_dir cfg rawphot w) ∧
     o !! "star_or_disk" = Some (VStrs (tag_str <$> tags)) ∧
     Forall2 (λ c t, (c ∈ models_star cfg → t = Star) ∧
                     (c ∈ models_disk cfg → c ∉ models_star cfg → t = Disk))
             comps tags) ∧
  (Exists (λ c, (c ∉ models_star cfg) ∧ (c ∉ models_disk cfg)) comps →
   ∃ c, c ∈ comps ∧ (c ∉ models_star cfg) ∧ (c ∉ models_disk cfg) ∧
        file_info cfg self rawphot comps w = (Raise (SdfError c), w)).
Proof.
  split.
  - intros Hall.
    destruct (classify_ok cfg comps) as (tags & Hc & Htags).
    { eapply Forall_impl; [exact Hall|]. intros c Hc. simpl in Hc.
      destruct (decide (c ∈ models_star cfg)).
      - rewrite tag_of_star; eauto.
      - destruct Hc; [done|]. rewrite tag_of_disk; eauto. }
    exists (refreshed cfg self rawphot comps tags), tags.
    rewrite file_info_run, Hc. split; [done|]. split.
    + apply refreshed_attrs.
    + eapply Forall2_impl; [exact Htags|]. intros c t Ht. simpl in Ht. split.
      * intros Hs. rewrite tag_of_star in Ht by done. congruence.
      * intros Hd Hs. rewrite tag_of_disk in Ht by done. congruence.
  - intros Hex.
    destruct (classify_raise cfg comps) as (c & Hc & Hin & Hnone).
    { eapply Exists_impl; [exact Hex|]. intros c [? ?]. by apply tag_of_none. }
    exists c. rewrite file_info_run, Hc. unfold tag_of in Hnone.
    repeat case_bool_decide; done.
Qed.

End FileInfo.

(** The two halves of [file_info_tags] on the example configuration. *)
Lemma file_info_tags_witness :
  (∃ o tags,
     file_info Toy.cfg ∅ Toy.rawphot ["phoenix_m"; "modbb_disk_r"] (Toy.world ∅)
     = (Ok o, with_pmn_dir Toy.cfg Toy.rawphot (Toy.world ∅)) ∧
     o !! "star_or_disk" = Some (VStrs (tag_str <$> tags)) ∧
     Forall2 (λ c t, (c ∈ models_star Toy.cfg → t = Star) ∧
                     (c ∈ models_disk Toy.cfg → c ∉ models_star Toy.cfg → t = Disk))
             ["phoenix_m"; "modbb_disk_r"] tags) ∧
  (∃ c, c ∈ ["phoenix_m"; "amsil"] ∧ (c ∉ models_star Toy.cfg) ∧
        (c ∉ models_disk Toy.cfg) ∧
        file_info Toy.cfg ∅ Toy.rawphot ["phoenix_m"; "amsil"] (Toy.world ∅)
        = (Raise (SdfError c), Toy.world ∅)).
Proof.
  split.
  - apply (proj1 (file_info_tags Toy.cfg ∅ Toy.rawphot
                    ["phoenix_m"; "modbb_disk_r"] (Toy.world ∅))).
    repeat constructor; simpl; rewrite !list_elem_of_singleton; auto.
  - apply (proj2 (file_info_tags Toy.cfg ∅ Toy.rawphot
                    ["phoenix_m"; "amsil"] (Toy.world ∅))).
    apply Exists_cons_tl, Exists_cons_hd. simpl.
    rewrite !list_elem_of_singleton. split; discriminate.
Defined.

(** C5 as stated fails: a model listed both as star and as disk is in the
    disk list and is tagged [star]. *)
Lemma file_info_disk_listed_tagged_star :
  "bb" ∈ models_disk Toy.cfg_overlap ∧
  ∃ o, (file_info Toy.cfg_overlap ∅ Toy.rawphot ["bb"] (Toy.world ∅)).1 = Ok o ∧
       o !! "star_or_disk" = Some (VStrs ["star"]).
Proof.
  split; [apply list_elem_of_further, list_elem_of_here|].
  eexists. split; reflexivity.
Qed.

(** ** The trace of a computation *)

Section Traces.
Context {F : Type} `{FloatF : Float F} {Ext : Type}.
Variable P : Event → Prop.
Implicit Types (w : World (F:=F) (Ext:=Ext)).

Lemma appends_ret {A} (a : A) : appends (F:=F) (Ext:=Ext) P (retM a).
Proof. intros w. exists []. by rewrite app_nil_r. Qed.

Lemma appends_lift {A} (r : Res A) : appends (F:=F) (Ext:=Ext) P (lift r).
Proof. intros w. exists []. by rewrite app_nil_r. Qed.

Lemma appends_raise {A} e : appends (F:=F) (Ext:=Ext) P (raise (A:=A) e).
Proof. apply appends_lift. Qed.

Lemma appends_bind {A B} (m : M (F:=F) (Ext:=Ext) A) (f : A → M B) :
  appends P m → (∀ a, appends P (f a)) → appends P (bindM m f).
Proof.
  intros Hm Hf w. unfold bindM. destruct (Hm w) as (l & Hl & HP).
  destruct (m w) as [[a|e] w']; simpl in *.
  - destruct (Hf a w') as (l' & Hl' & HP'). exists (l ++ l').
    rewrite Hl', Hl, <- app_assoc. split; [done|]. by apply Forall_app.
  - by exists l.
Qed.

Lemma appends_the_fs : appends (F:=F) (Ext:=Ext) P the_fs.
Proof. intros w. exists []. by rewrite app_nil_r. Qed.

Lemma appends_the_time : appends (F:=F) (Ext:=Ext) P the_time.
Proof. intros w. exists []. by rewrite app_nil_r. Qed.

Lemma appends_set_fs fs' : appends (F:=F) (Ext:=Ext) P (set_fs fs').
Proof. intros w. exists []. by rewrite app_nil_r. Qed.

Lemma appends_emit e : P e → appends (F:=F) (Ext:=Ext) P (emit e).
Proof. intros He w. exists [e]. split; [done|]. by constructor. Qed.

Lemma appends_attr_str o name : appends (F:=F) (Ext:=Ext) P (attr_str o name).
Proof.
  unfold attr_str. destruct (o !! name) as [[]|];
    first [apply appends_ret | apply appends_raise].
Qed.

Lemma appends_path_exists p : appends (F:=F) (Ext:=Ext) P (path_exists p).
Proof.
  apply appends_bind; [apply appends_the_fs|]. intros. apply appends_ret.
Qed.

Lemma appends_getmtime p : appends (F:=F) (Ext:=Ext) P (getmtime p).
Proof.
  apply appends_bind; [apply appends_the_fs|]. intros fs.
  destruct (fs !! p); [apply appends_ret | apply appends_raise].
Qed.

Lemma appends_write_file p c : appends (F:=F) (Ext:=Ext) P (write_file p c).
Proof.
  apply appends_bind; [apply appends_the_fs|]. intros.
  apply appends_bind; [apply appends_the_time|]. intros. apply appends_set_fs.
Qed.

Lemma appends_remove_loop found : appends (F:=F) (Ext:=Ext) P (remove_loop found).
Proof.
  induction found as [|[p f] rest IH]; [apply appends_ret|]. simpl.
  destruct (f_content f); [|apply appends_raise|];
    (apply appends_bind; [apply appends_the_fs|]; intros;
     apply appends_bind; [apply appends_set_fs|]; intros; apply IH).
Qed.

Lemma appends_delete_multinest base :
  P (EvRemove base) → appends (F:=F) (Ext:=Ext) P (delete_multinest base).
Proof.
  intros. apply appends_bind; [by apply appends_emit|]. intros.
  apply appends_bind; [apply appends_the_fs|]. intros. apply appends_remove_loop.
Qed.

Lemma appends_run_multinest (ext : Externals) obs mods dir :
  P (EvMultinest dir) → appends (F:=F) (Ext:=Ext) P (run_multinest ext obs mods dir).
Proof.
  intros. apply appends_bind; [by apply appends_emit|]. intros _ w.
  exists []. rewrite app_nil_r. split; [|done].
  by destruct (multinest ext obs mods dir (fs w, now w)).
Qed.

Lemma appends_plot_needed update_an figure mtime :
  appends (F:=F) (Ext:=Ext) P (plot_needed update_an figure mtime).
Proof.
  apply appends_bind; [apply appends_path_exists|]. intros [|].
  - apply appends_bind; [apply appends_getmtime|]. intros. apply appends_ret.
  - apply appends_ret.
Qed.

End Traces.

(** ** [get] and its cache *)

Section Cache.
Context {F : Type} `{FloatF : Float F} {Ext : Type}.
Variable cfg : Config.
Variable phys : Physics (F:=F).
Variable ext : Externals (F:=F) (Ext:=Ext).
Implicit Types (self stored : gmap string (Value (F:=F) (Ext:=Ext))).
Implicit Types (w : World (F:=F) (Ext:=Ext)).

(** Everything [get_fresh] does after it has read the photometry file
    appends events other than pickle loads. *)
Lemma get_fresh_run self0 rawphot comps tags um ua nospec w :
  let self := refreshed cfg self0 rawphot comps tags in
  ∃ l, trace (get_fresh cfg phys ext self comps um ua nospec w).2
       = trace w ++ EvReadPhot rawphot :: l ∧
       Forall (λ e, ¬ is_load e) l.
Proof.
  intros self. unfold get_fresh.
  destruct (refreshed_attrs cfg self0 rawphot comps tags)
    as (_ & _ & _ & Hr & _ & _ & Hd & Hb & Hp).
  fold self in Hr, Hd, Hb, Hp.
  unfold attr_str at 1 2 3 4. rewrite Hr, Hd, Hb, Hp.
  unfold bindM at 1 2 3 4. simpl. unfold bindM at 1. simpl.
  match goal with |- ∃ l, trace (?k ?w').2 = _ ∧ _ =>
    assert (appends (λ e, ¬ is_load e) k) as Hk end.
  { clear.
    assert (∀ e, (∀ p, e ≠ EvPickleLoad p) → ¬ is_load e) as Hne.
    { intros e He [p ->]. by eapply He. }
    repeat first
      [ apply appends_ret | apply appends_lift | apply appends_raise
      | apply appends_the_fs | apply appends_the_time | apply appends_set_fs
      | apply appends_path_exists | apply appends_getmtime
      | apply appends_write_file | apply appends_plot_needed
      | apply appends_run_multinest; apply Hne; discriminate
      | apply appends_delete_multinest; apply Hne; discriminate
      | apply appends_emit; apply Hne; discriminate
      | apply appends_bind; [|intros]
      | match goal with
        | |- appends _ (match ?x with _ => _ end) => destruct x
        | |- appends _ (let '(_, _) := ?x in _) => destruct x
        end ]. }
  match goal with |- ∃ l, trace (?k ?w').2 = _ ∧ _ =>
    destruct (Hk w') as (l & Hl & HP) end.
  exists l. split; [|done]. rewrite Hl. simpl. by rewrite <- app_assoc.
Qed.

Lemma with_pmn_dir_exists rawphot w :
  is_Some (fs (with_pmn_dir cfg rawphot w) !! pmn_dir_of cfg rawphot).
Proof.
  unfold with_pmn_dir. case_bool_decide; [done|]. simpl.
  rewrite lookup_insert_eq. eauto.
Qed.

Lemma with_pmn_dir_loaded rawphot p w :
  with_pmn_dir cfg rawphot (loaded p (with_pmn_dir cfg rawphot w))
  = loaded p (with_pmn_dir cfg rawphot w).
Proof.
  unfold with_pmn_dir at 1. rewrite bool_decide_eq_true_2; [done|].
  apply with_pmn_dir_exists.
Qed.

(** The freshness test reads three modification times and changes
    nothing. *)
Lemma pickle_is_fresh_run self0 rawphot comps tags w :
  let self := refreshed cfg self0 rawphot comps tags in
  pickle_is_fresh self false false w =
  match fs w !! pickle_of cfg rawphot comps with
  | None => (Ok false, w)
  | Some fp =>
      match fs w !! rawphot with
      | None => (Raise (FileNotFoundError rawphot), w)
      | Some fr =>
          if Qltb (f_mtime fr) (f_mtime fp) then
            match fs w !! marker_of cfg rawphot comps with
            | None => (Raise (FileNotFoundError (marker_of cfg rawphot comps)), w)
            | Some fm => (Ok (Qltb (f_mtime fm) (f_mtime fp)), w)
            end
          else (Ok false, w)
      end
  end.
Proof.
  intros self. unfold pickle_is_fresh. simpl.
  destruct (refreshed_attrs cfg self0 rawphot comps tags)
    as (_ & _ & _ & Hr & _ & _ & _ & Hb & Hp).
  fold self in Hr, Hb, Hp.
  unfold attr_str. rewrite Hr, Hb, Hp.
  unfold marker_of.
  destruct (fs w !! pickle_of cfg rawphot comps) as [fp|] eqn:Hfp;
    repeat (unfold bindM, retM, path_exists, getmtime, the_fs, raise, lift;
            simpl; rewrite ?Hfp); [|done].
  destruct (fs w !! rawphot) as [fr|] eqn:Hfr;
    repeat (unfold bindM, retM, raise, lift; simpl; rewrite ?Hfp, ?Hfr); [|done].
  destruct (Qltb (f_mtime fr) (f_mtime fp));
    repeat (unfold bindM, retM, raise, lift; simpl; rewrite ?Hfp, ?Hfr); [|done].
  by match goal with |- context [fs w !! ?k] => destruct (fs w !! k) end.
Qed.

Lemma pickle_is_fresh_forced self um ua w :
  um || ua = true → pickle_is_fresh self um ua w = (Ok false, w).
Proof. unfold pickle_is_fresh. by destruct um, ua. Qed.

(** One run of the body of [get], by cases on the classification and the freshness test. *)
Lemma get_run rawphot comps um ua nospec w :
  get_wrapped cfg phys ext rawphot comps um ua nospec w =
  match classify cfg comps [] with
  | Raise e => (Raise e, w)
  | Ok tags =>
      let self := refreshed cfg ∅ rawphot comps tags in
      let w1 := with_pmn_dir cfg rawphot w in
      match pickle_is_fresh self um ua w1 with
      | (Ok true, w2) =>
          match fs w2 !! pickle_of cfg rawphot comps with
          | Some {| f_content := Pickled stored |} =>
              (Ok (Some (refreshed cfg stored rawphot comps tags)),
               with_pmn_dir cfg rawphot (loaded (pickle_of cfg rawphot comps) w2))
          | Some _ =>
              (Raise (UnpicklingError (pickle_of cfg rawphot comps)),
               loaded (pickle_of cfg rawphot comps) w2)
          | None =>
              (Raise (FileNotFoundError (pickle_of cfg rawphot comps)),
               loaded (pickle_of cfg rawphot comps) w2)
          end
      | (Ok false, w2) => get_fresh cfg phys ext self comps um ua nospec w2
      | (Raise e, w2) => (Raise e, w2)
      end
  end.
Proof.
  unfold get_wrapped, Result_new. unfold bindM at 1. rewrite file_info_run.
  destruct (classify cfg comps []) as [tags|e] eqn:Hc; [|done]. simpl.
  unfold bindM at 1.
  destruct (pickle_is_fresh _ um ua _) as [[[|]|e] w2]; [|done|done].
  destruct (refreshed_attrs (F:=F) (Ext:=Ext) cfg ∅ rawphot comps tags)
    as (_ & _ & _ & _ & _ & _ & _ & _ & Hp).
  unfold attr_str. rewrite Hp.
  unfold bindM at 1. unfold retM at 1. unfold bindM at 1.
  unfold pickle_load, bindM, emit, the_fs, raise, lift, retM. simpl.
  destruct (fs w2 !! pickle_of cfg rawphot comps) as [[t []]|]; try done.
  rewrite file_info_run, Hc. done.
Qed.

Lemma Result_new_inv rawphot comps w self w1 :
  Result_new cfg rawphot comps w = (Ok self, w1) →
  ∃ tags, classify cfg comps [] = Ok tags ∧
          self = refreshed cfg ∅ rawphot comps tags ∧
          w1 = with_pmn_dir cfg rawphot w.
Proof.
  unfold Result_new. rewrite file_info_run.
  destruct (classify cfg comps []) as [tags|]; [|done].
  intros [= <- <-]. eauto.
Qed.

Lemma get_fresh_no_photometry self0 rawphot comps tags um ua nospec w :
  read_phot ext (fs w) rawphot = None →
  get_fresh cfg phys ext (refreshed cfg self0 rawphot comps tags) comps um ua nospec w
  = (Ok None, {| fs := fs w; now := now w; trace := trace w ++ [EvReadPhot rawphot] |}).
Proof.
  intros Hread. unfold get_fresh.
  destruct (refreshed_attrs cfg self0 rawphot comps tags)
    as (_ & _ & _ & Hr & _ & _ & Hd & Hb & Hp).
  unfold attr_str at 1 2 3 4. rewrite Hr, Hd, Hb, Hp.
  unfold bindM, retM, emit, the_fs. simpl. by rewrite Hread.
Qed.

(** The body of [get].  Once the object is constructed (in the world
    [w1]), and with both update flags false, it loads the pickle and
    returns its content exactly when the pickle file exists there and its
    modification time is strictly greater than those of the photometry
    file and of the sampler's marker.  With either flag set, it is the
    fresh computation, and no pickle is loaded. *)
Lemma get_wrapped_uses_pickle_iff rawphot comps um ua nospec w self w1 :
  Result_new cfg rawphot comps w = (Ok self, w1) →
  let out := get_wrapped cfg phys ext rawphot comps um ua nospec w in
  (um = false → ua = false →
     (returns_pickle cfg w1 rawphot comps out ↔
      ∃ stored, cache_valid cfg w1 rawphot comps stored)) ∧
  (um = true ∨ ua = true →
     out = get_fresh cfg phys ext self comps um ua nospec w1 ∧
     ∃ l, trace out.2 = trace w1 ++ l ∧ Forall (λ e, ¬ is_load e) l).
Proof.
  intros (tags & Hc & -> & ->)%Result_new_inv out. subst out.
  rewrite get_run, Hc. simpl.
  set (w1 := with_pmn_dir cfg rawphot w).
  assert (∀ o, get_fresh cfg phys ext (refreshed cfg ∅ rawphot comps tags)
                 comps um ua nospec w1
               ≠ (o, loaded (pickle_of cfg rawphot comps) w1)) as Hne.
  { intros o Heq.
    destruct (get_fresh_run ∅ rawphot comps tags um ua nospec w1) as (l & Hl & _).
    rewrite Heq in Hl. simpl in Hl. by apply app_inv_head in Hl. }
  split.
  - intros -> ->. rewrite pickle_is_fresh_run.
    destruct (fs w1 !! pickle_of cfg rawphot comps) as [fp|] eqn:Hfp.
    2:{ split.
        - intros (? & ? & ? & ? & _); congruence.
        - intros (? & ? & ? & ? & ? & _); congruence. }
    destruct (fs w1 !! rawphot) as [fr|] eqn:Hfr.
    2:{ split.
        - intros (? & ? & ? & _ & _ & _ & ?); congruence.
        - intros (? & ? & ? & ? & _ & _ & ? & _); congruence. }
    destruct (Qltb (f_mtime fr) (f_mtime fp)) eqn:Hrp.
    2:{ split.
        - intros (? & ? & ? & _ & _ & _ & ?). by edestruct Hne.
        - intros (? & fp' & fr' & ? & ? & _ & ? & ? & Hlt & _). simplify_eq.
          apply Qltb_lt in Hlt. congruence. }
    destruct (fs w1 !! marker_of cfg rawphot comps) as [fm|] eqn:Hfm.
    2:{ split.
        - intros (? & ? & ? & _ & _ & _ & ?); congruence.
        - intros (? & ? & ? & ? & _ & _ & _ & ? & _); congruence. }
    destruct (Qltb (f_mtime fm) (f_mtime fp)) eqn:Hmp.
    2:{ split.
        - intros (? & ? & ? & _ & _ & _ & ?). by edestruct Hne.
        - intros (? & fp' & fr' & fm' & ? & _ & ? & ? & _ & Hlt). simplify_eq.
          apply Qltb_lt in Hlt. congruence. }
    rewrite Hfp. destruct fp as [tp [| |stored]]; simpl in *.
    1,2: split;
      [ intros (? & ? & ? & _ & _ & _ & ?); congruence
      | intros (? & fp' & ? & ? & ? & Hcont & _); simplify_eq; simpl in Hcont;
        congruence ].
    subst w1. rewrite with_pmn_dir_loaded. split.
    + intros _. exists stored, {| f_mtime := tp; f_content := Pickled stored |}, fr, fm.
      repeat split; try done; by apply Qltb_lt.
    + intros _. exists {| f_mtime := tp; f_content := Pickled stored |}, stored, tags.
      done.
  - intros Hflag. rewrite pickle_is_fresh_forced
      by (destruct Hflag as [-> | ->]; [done|by destruct um]).
    split; [done|].
    destruct (get_fresh_run ∅ rawphot comps tags um ua nospec w1) as (l & Hl & HP).
    exists (EvReadPhot rawphot :: l). split; [done|].
    constructor; [|done]. by intros [? ?].
Qed.

(** With a valid cache, the body of [get] is the load of the pickle followed by
    [file_info]. *)
Lemma get_of_valid_cache rawphot comps nospec w tags stored :
  classify cfg comps [] = Ok tags →
  cache_valid cfg (with_pmn_dir cfg rawphot w) rawphot comps stored →
  get_wrapped cfg phys ext rawphot comps false false nospec w
  = (Ok (Some (refreshed cfg stored rawphot comps tags)),
     loaded (pickle_of cfg rawphot comps) (with_pmn_dir cfg rawphot w)).
Proof.
  intros Hc (fp & fr & fm & Hfp & Hs & Hfr & Hfm & Hrp%Qltb_lt & Hmp%Qltb_lt).
  rewrite get_run, Hc. simpl.
  rewrite pickle_is_fresh_run, Hfp, Hfr, Hrp, Hfm, Hmp, Hfp.
  destruct fp as [tp c]. simpl in Hs. subst c.
  by rewrite with_pmn_dir_loaded.
Qed.

(** Without a usable pickle, a photometry file without photometry makes
    the body of [get] return [None]; it has then read the photometry file
    and done nothing else. *)
Lemma get_no_photometry rawphot comps um ua nospec w self w1 :
  Result_new cfg rawphot comps w = (Ok self, w1) →
  pickle_is_fresh self um ua w1 = (Ok false, w1) →
  read_phot ext (fs w1) rawphot = None →
  get_wrapped cfg phys ext rawphot comps um ua nospec w
  = (Ok None, {| fs := fs w1; now := now w1;
                 trace := trace w1 ++ [EvReadPhot rawphot] |}).
Proof.
  intros (tags & Hc & -> & ->)%Result_new_inv Hfresh Hread.
  rewrite get_run, Hc. simpl. rewrite Hfresh.
  by apply get_fresh_no_photometry.
Qed.

(** *** The memo *)

Lemma get_miss rawphot comps um ua nospec p :
  memo_find (rawphot, comps, um, ua, nospec) (proc_memo p) = None →
  get cfg phys ext rawphot comps um ua nospec p =
  match get_wrapped cfg phys ext rawphot comps um ua nospec (proc_world p) with
  | (Ok v, w') =>
      (Ok v, {| proc_world := w';
                proc_memo := take maxsize (((rawphot, comps, um, ua, nospec), v)
                                           :: proc_memo p) |})
  | (Raise e, w') => (Raise e, {| proc_world := w'; proc_memo := proc_memo p |})
  end.
Proof. intros Hmiss. unfold get. by rewrite Hmiss. Qed.

Lemma get_miss_outcome rawphot comps um ua nospec p :
  memo_find (rawphot, comps, um, ua, nospec) (proc_memo p) = None →
  outcome (get cfg phys ext rawphot comps um ua nospec p)
  = get_wrapped cfg phys ext rawphot comps um ua nospec (proc_world p).
Proof.
  intros Hmiss. rewrite get_miss by done. unfold outcome.
  by destruct (get_wrapped _ _ _ _ _ _ _ _ _) as [[v|e] w'].
Qed.

Lemma get_hit rawphot comps um ua nospec p v :
  memo_find (rawphot, comps, um, ua, nospec) (proc_memo p) = Some v →
  get cfg phys ext rawphot comps um ua nospec p
  = (Ok v, {| proc_world := proc_world p;
              proc_memo := ((rawphot, comps, um, ua, nospec), v)
                           :: memo_drop (rawphot, comps, um, ua, nospec) (proc_memo p) |}).
Proof. intros Hhit. unfold get. by rewrite Hhit. Qed.

Lemma memo_find_here (k : Key) (v : option (gmap string (Value (F:=F) (Ext:=Ext)))) m :
  memo_find k ((k, v) :: m) = Some v.
Proof. simpl. by rewrite decide_True. Qed.

Lemma memo_find_drop (k k' : Key) (m : list (Key * option (gmap string (Value (F:=F) (Ext:=Ext))))) :
  k ≠ k' → memo_find k' (memo_drop k m) = memo_find k' m.
Proof.
  intros Hne. induction m as [|[k0 v0] m IH]; [done|]. simpl.
  destruct (decide (k = k0)) as [<-|]; simpl.
  - by rewrite decide_False.
  - by rewrite IH.
Qed.

Lemma memo_find_take (k : Key) (m : list (Key * option (gmap string (Value (F:=F) (Ext:=Ext))))) n v :
  memo_find k (take n m) = Some v → memo_find k m = Some v.
Proof.
  revert n. induction m as [|[k0 v0] m IH]; intros [|n]; simpl; try done.
  destruct (decide (k = k0)); [done|]. apply IH.
Qed.

(** C1, as the code has it.  A call of [get] whose arguments are not in
    the memo runs the body: once the object is constructed (in the world
    [w1]), and with both update flags false, the pickle is loaded and its
    content returned exactly when the pickle file exists and its
    modification time is strictly greater than those of the photometry
    file and of the sampler's marker; with either flag set, the call is
    the fresh computation and no pickle is loaded.  A call whose arguments
    are in the memo returns the memoised result and leaves the world as
    it is: no file is examined, nothing is loaded or computed. *)
Theorem get_uses_pickle_iff rawphot comps um ua nospec p self w1 :
  Result_new cfg rawphot comps (proc_world p) = (Ok self, w1) →
  let k : Key := (rawphot, comps, um, ua, nospec) in
  let out := get cfg phys ext rawphot comps um ua nospec p in
  (memo_find k (proc_memo p) = None →
     (um = false → ua = false →
        (returns_pickle cfg w1 rawphot comps (outcome out) ↔
         ∃ stored, cache_valid cfg w1 rawphot comps stored)) ∧
     (um = true ∨ ua = true →
        outcome out = get_fresh cfg phys ext self comps um ua nospec w1 ∧
        ∃ l, trace (proc_world out.2) = trace w1 ++ l ∧
             Forall (λ e, ¬ is_load e) l)) ∧
  (∀ v, memo_find k (proc_memo p) = Some v →
     out.1 = Ok v ∧ proc_world out.2 = proc_world p).
Proof.
  intros Hnew k out. split.
  - intros Hmiss. subst out k. rewrite get_miss_outcome by done.
    pose proof (get_wrapped_uses_pickle_iff rawphot comps um ua nospec _ _ _ Hnew)
      as [Hfalse Htrue].
    split; [done|]. intros Hflag. destruct (Htrue Hflag) as [Heq Hl].
    split; [done|].
    replace (proc_world (get cfg phys ext rawphot comps um ua nospec p).2)
      with (outcome (get cfg phys ext rawphot comps um ua nospec p)).2 by done.
    by rewrite get_miss_outcome.
  - intros v Hhit. subst out k. by rewrite (get_hit _ _ _ _ _ _ v).
Qed.

(** C8, as the code has it.  When [get] returns from the cache, the
    object it returns has the nine attributes that [file_info] assigns
    equal to those of an object constructed for the present call, and
    every other attribute as it is in the pickle.  This is what the body
    of [get] does, and so what a call does whose arguments are not in the
    memo; the object is then memoised. *)
Theorem get_cached_attrs rawphot comps nospec w self w1 stored :
  Result_new cfg rawphot comps w = (Ok self, w1) →
  cache_valid cfg w1 rawphot comps stored →
  ∃ o, get_wrapped cfg phys ext rawphot comps false false nospec w
       = (Ok (Some o), loaded (pickle_of cfg rawphot comps) w1) ∧
       (∀ name, name ∈ file_info_attrs → o !! name = self !! name) ∧
       (∀ name, name ∉ file_info_attrs → o !! name = stored !! name) ∧
       (∀ p, proc_world p = w →
          memo_find (rawphot, comps, false, false, nospec) (proc_memo p) = None →
          get cfg phys ext rawphot comps false false nospec p
          = (Ok (Some o),
             {| proc_world := loaded (pickle_of cfg rawphot comps) w1;
                proc_memo := take maxsize
                  (((rawphot, comps, false, false, nospec), Some o) :: proc_memo p) |})).
Proof.
  intros (tags & Hc & -> & ->)%Result_new_inv Hvalid.
  eexists. split; [by apply get_of_valid_cache|]. split; [|split].
  - intros. by apply refreshed_same.
  - intros. by apply refreshed_other.
  - intros p <- Hmiss. rewrite get_miss by done.
    by rewrite (get_of_valid_cache _ _ _ _ tags stored).
Qed.

(** C6, as the code has it.  A call of [get] that is not answered from
    the memo and uses no pickle (the freshness test answers no) returns
    [None] when the photometry file holds no photometry; the one thing it
    has done is to read that file, so the sampler was not run and no file
    was written.  The answer [None] is memoised. *)
Theorem no_photometry_no_result rawphot comps um ua nospec p self w1 :
  memo_find (rawphot, comps, um, ua, nospec) (proc_memo p) = None →
  Result_new cfg rawphot comps (proc_world p) = (Ok self, w1) →
  pickle_is_fresh self um ua w1 = (Ok false, w1) →
  read_phot ext (fs w1) rawphot = None →
  get cfg phys ext rawphot comps um ua nospec p
  = (Ok None,
     {| proc_world := {| fs := fs w1; now := now w1;
                         trace := trace w1 ++ [EvReadPhot rawphot] |};
        proc_memo := take maxsize
          (((rawphot, comps, um, ua, nospec), None) :: proc_memo p) |}).
Proof.
  intros Hmiss Hnew Hfresh Hread. rewrite get_miss by done.
  by rewrite (get_no_photometry _ _ _ _ _ _ _ _ Hnew Hfresh Hread).
Qed.

End Cache.

(** ** The selection loop *)

Lemma foldl_max_spec (l : list Q) (a : Q) :
  let m := foldl (λ a b, if Qle_bool a b then b else a) a l in
  (a <= m)%Q ∧ Forall (λ x, (x <= m)%Q) l ∧ (m = a ∨ m ∈ l).
Proof.
  revert a. induction l as [|b l IH]; intros a; simpl.
  - split; [apply Qle_refl|]. split; [constructor|by left].
  - destruct (Qle_bool a b) eqn:Hab.
    + apply Qle_bool_iff in Hab.
      destruct (IH b) as (Hb & Hl & Hin). split; [by eapply Qle_trans|].
      split; [by constructor|]. right. destruct Hin as [->|?]; [left|by right].
    + assert (b <= a)%Q as Hba.
      { apply Qlt_le_weak, Qnot_le_lt. intros H%Qle_bool_iff. congruence. }
      destruct (IH a) as (Ha & Hl & Hin). split; [done|].
      split; [constructor; [by eapply Qle_trans|done]|].
      destruct Hin as [->|?]; [by left|right; by right].
Qed.

Lemma np_max_spec (l : list Q) :
  l ≠ [] → Forall (λ x, (x <= np_max l)%Q) l ∧ np_max l ∈ l.
Proof.
  destruct l as [|a l]; [done|]. intros _. simpl.
  destruct (foldl_max_spec l a) as (Ha & Hl & Hin). split.
  - by constructor.
  - destruct Hin as [->|?]; [left|by right].
Qed.

Section FitProps.
Context {F : Type} `{FloatF : Float F} {Ext : Type}.
Variable cfg : Config.
Variable ext : Externals (F:=F) (Ext:=Ext).
Implicit Types (r res : gmap string (Value (F:=F) (Ext:=Ext))).
Implicit Types (results : list (gmap string (Value (F:=F) (Ext:=Ext)))).
Implicit Types (w : World (F:=F) (Ext:=Ext)).

Lemma mapM_Ok {A B} (f : A → Res B) (l : list A) (k : list B) :
  mapM f l = Ok k ↔ Forall2 (λ x y, f x = Ok y) l k.
Proof.
  revert k. induction l as [|x l IH]; intros k; simpl.
  - split; [intros [= <-]; constructor|by intros ->%Forall2_nil_inv_l].
  - split.
    + destruct (f x) as [y|e] eqn:Hx; [|done]. simpl.
      destruct (mapM f l) as [k'|e] eqn:Hl; [|done]. simpl.
      intros [= <-]. constructor; [done|]. by apply IH.
    + intros (y & k' & Hy & Hk & ->)%Forall2_cons_inv_l.
      apply IH in Hk. by rewrite Hy, Hk.
Qed.

(** The test of lines 47-50 on the evidences read from the results. *)
Lemma stops_evidences f results evs :
  1 < length f → mapM evidence_of results = Ok evs → evs ≠ [] →
  stops f results = Ok (negb (Qeq_bool (np_max evs) (default 0%Q (last evs)))).
Proof.
  intros Hf Hevs Hne. unfold stops. rewrite decide_True by done.
  rewrite Hevs. simpl. by destruct evs.
Qed.

(** C2, as the code has it.  For a candidate [f] of more than one
    component, with [newest] its evidence and [earlier] the evidences of
    the results before it in the list: the loop stops when [newest] is
    strictly below one of the earlier evidences, whichever it is, and goes
    on when [newest] is strictly above all of them. *)
Theorem stops_below_maximum f results earlier newest :
  1 < length f →
  mapM evidence_of results = Ok (earlier ++ [newest]) →
  ((∃ e, e ∈ earlier ∧ (newest < e)%Q) → stops f results = Ok true) ∧
  ((∀ e, e ∈ earlier → (e < newest)%Q) → stops f results = Ok false).
Proof.
  intros Hf Hevs.
  rewrite (stops_evidences f results (earlier ++ [newest])) by (done || by destruct earlier).
  rewrite last_snoc. simpl.
  destruct (np_max_spec (earlier ++ [newest])) as [Hall Hin]; [by destruct earlier|].
  set (m := np_max _) in *.
  rewrite Forall_app, Forall_singleton in Hall. destruct Hall as [Hall Hnew].
  split.
  - intros (e & He & Hlt). f_equal. apply negb_true_iff, not_true_iff_false.
    rewrite Qeq_bool_iff. intros Heq.
    rewrite Forall_forall in Hall. specialize (Hall e He). rewrite Heq in Hall.
    by apply (Qlt_not_le _ _ Hlt).
  - intros Habove. f_equal. apply negb_false_iff, Qeq_bool_iff.
    apply elem_of_app in Hin as [Hin|Hin%list_elem_of_singleton].
    + apply Qle_antisym; [|done]. apply Qlt_le_weak. by apply Habove.
    + by rewrite Hin.
Qed.

(** A candidate of one component never stops the loop. *)
Lemma stops_single (f : list string) results :
  (length f ≤ 1)%nat → stops f results = Ok false.
Proof. intros Hf. unfold stops. rewrite decide_False; [done|lia]. Qed.

(** The constructor call of line 38 passes two keywords that [__init__]
    does not take. *)
Lemma Result_call_keywords file f kw kws w :
  Result_call cfg file f (kw :: kws) w = (Raise TypeError, w).
Proof. done. Qed.

Lemma fit_loop_raises file update nospec f rest results w :
  fit_loop cfg file update nospec (f :: rest) results w = (Raise TypeError, w).
Proof. done. Qed.

(** C3, as the code has it.  Whatever the evidences would be, with a
    family configured [fit_results] raises [TypeError] at the constructor
    call for the first family: no result is made, no file is touched and
    no list is returned. *)
Theorem fit_results_raises file update sort nospec w :
  fitting_models cfg ≠ [] →
  fit_results cfg ext file update sort nospec w = (Raise TypeError, w).
Proof.
  intros Hne. unfold fit_results.
  destruct (fitting_models cfg) as [|f rest]; [done|].
  unfold bindM. by rewrite fit_loop_raises.
Qed.

End FitProps.

(** ** The derived quantities *)

#[local] Set Warnings "-clear-no-such-hyp".

Section Derived.
Context {F : Type} `{FloatF : Float F}.
Variable cfg : Config.
Variable phys : Physics (F:=F).
Implicit Types (self : Fit (F:=F)).
Implicit Types (d star disk_r : gmap string F).
Implicit Types (dists : gmap string (list F)).











(** *** The parameters of a star *)








(** *** The parameters of a disk *)






(** *** The loops over the components *)





End Derived.

(** ** The reported quantities and their distributions *)

Section Reported.
Context {F : Type} `{FloatF : Float F} {Ext : Type}.
Variable cfg : Config.
Variable phys : Physics (F:=F).
Variable ext : Externals (F:=F) (Ext:=Ext).
Implicit Types (self o base : gmap string (Value (F:=F) (Ext:=Ext))).
Implicit Types (w : World (F:=F) (Ext:=Ext)).


Lemma list_to_map_lookup {V} (l : list (string * V)) k :
  (list_to_map l : gmap string V) !! k = assoc_first k l.
Proof.
  induction l as [|[k' v] l IH]; [done|]. simpl.
  destruct (String.eqb_spec k k') as [->|Hne].
  - apply lookup_insert_eq.
  - by rewrite lookup_insert_ne.
Qed.


Ltac dist_attr := rewrite list_to_map_lookup; reflexivity.











Lemma set_attrs_app base (l1 l2 : list (string * Value (F:=F) (Ext:=Ext))) :
  set_attrs base (l1 ++ l2) = set_attrs (set_attrs base l1) l2.
Proof. apply foldl_app. Qed.



End Reported.



(** ** The claims on the example world *)

Lemma Toy_with_pmn_dir :
  with_pmn_dir Toy.cfg Toy.rawphot (Toy.world Toy.fs_cached)
  = Toy.world Toy.fs_cached.
Proof.
  unfold with_pmn_dir. rewrite bool_decide_eq_true_2; [reflexivity|].
  eexists. vm_compute. reflexivity.
Defined.

Lemma Toy_classify : classify Toy.cfg ["phoenix_m"] [] = Ok [Star].
Proof. vm_compute. reflexivity. Defined.

Lemma Toy_Result_new :
  Result_new Toy.cfg Toy.rawphot ["phoenix_m"] (Toy.world Toy.fs_cached)
  = (Ok (refreshed Toy.cfg ∅ Toy.rawphot ["phoenix_m"] [Star]),
     Toy.world Toy.fs_cached).
Proof.
  unfold Result_new. rewrite file_info_run, Toy_classify, Toy_with_pmn_dir.
  reflexivity.
Defined.

Lemma Toy_cache_valid :
  cache_valid Toy.cfg (Toy.world Toy.fs_cached) Toy.rawphot ["phoenix_m"] Toy.stored.
Proof.
  exists {| f_mtime := 9%Q; f_content := Pickled Toy.stored |}, (Toy.file 5%Q),
         (Toy.file 7%Q).
  repeat split; reflexivity.
Defined.

(** The first call of a process on the example world loads the pickle. *)
Lemma Toy_get_wrapped :
  get_wrapped Toy.cfg Toy.phys Toy.ext Toy.rawphot ["phoenix_m"] false false false
    (Toy.world Toy.fs_cached)
  = (Ok (Some Toy.returned),
     loaded (pickle_of Toy.cfg Toy.rawphot ["phoenix_m"]) (Toy.world Toy.fs_cached)).
Proof.
  rewrite (get_of_valid_cache Toy.cfg Toy.phys Toy.ext Toy.rawphot ["phoenix_m"]
             false (Toy.world Toy.fs_cached) [Star] Toy.stored Toy_classify).
  - by rewrite Toy_with_pmn_dir.
  - rewrite Toy_with_pmn_dir. exact Toy_cache_valid.
Defined.

Lemma Toy_get_first :
  get Toy.cfg Toy.phys Toy.ext Toy.rawphot ["phoenix_m"] false false false
    (Toy.process Toy.fs_cached)
  = (Ok (Some Toy.returned), Toy.after_load).
Proof.
  rewrite get_miss by reflexivity.
  change (proc_world (Toy.process Toy.fs_cached)) with (Toy.world Toy.fs_cached).
  rewrite Toy_get_wrapped. reflexivity.
Defined.

Lemma Toy_returned_obs : hasattr (Some Toy.returned) "obs" = true.
Proof.
  unfold hasattr. apply bool_decide_eq_true_2.
  unfold Toy.returned. rewrite refreshed_other.
  - eexists. vm_compute. reflexivity.
  - unfold file_info_attrs. intros Hin.
    repeat (apply elem_of_cons in Hin as [Hin|Hin]; [discriminate|]).
    by apply elem_of_nil in Hin.
Qed.

(** [get_uses_pickle_iff] where a fresh pickle lies in the sampler's
    directory and the process has made no call yet: the pickle is what
    [get] returns. *)
Lemma get_uses_pickle_iff_witness :
  Result_new Toy.cfg Toy.rawphot ["phoenix_m"] (Toy.world Toy.fs_cached)
  = (Ok (refreshed Toy.cfg ∅ Toy.rawphot ["phoenix_m"] [Star]),
     Toy.world Toy.fs_cached) ∧
  returns_pickle Toy.cfg (Toy.world Toy.fs_cached) Toy.rawphot ["phoenix_m"]
    (outcome (get Toy.cfg Toy.phys Toy.ext Toy.rawphot ["phoenix_m"] false false false
                (Toy.process Toy.fs_cached))).
Proof.
  split; [exact Toy_Result_new|].
  apply (proj1 (proj1 (get_uses_pickle_iff Toy.cfg Toy.phys Toy.ext Toy.rawphot
                         ["phoenix_m"] false false false (Toy.process Toy.fs_cached)
                         _ _ Toy_Result_new) eq_refl) eq_refl eq_refl).
  exists Toy.stored. exact Toy_cache_valid.
Defined.

(** C1 as stated fails within one process.  After a first call has
    returned the pickle, the photometry file is written again: the pickle
    is now older than it, and a second call still returns the same
    object, with nothing loaded or computed.  And a call with [update_mn]
    set that follows an equal one computes nothing: it does not even read
    the photometry file. *)
Lemma get_answers_from_memo :
  get Toy.cfg Toy.phys Toy.ext Toy.rawphot ["phoenix_m"] false false false
    (Toy.process Toy.fs_cached)
  = (Ok (Some Toy.returned), Toy.after_load) ∧
  (¬ ∃ stored, cache_valid Toy.cfg (proc_world (Toy.touched Toy.after_load))
                 Toy.rawphot ["phoenix_m"] stored) ∧
  outcome (get Toy.cfg Toy.phys Toy.ext Toy.rawphot ["phoenix_m"] false false false
             (Toy.touched Toy.after_load))
  = (Ok (Some Toy.returned), proc_world (Toy.touched Toy.after_load)) ∧
  get Toy.cfg Toy.phys Toy.ext Toy.rawphot ["phoenix_m"] true false false
    (Toy.process Toy.fs_cached)
  = (Ok None, Toy.after_forced) ∧
  outcome (get Toy.cfg Toy.phys Toy.ext Toy.rawphot ["phoenix_m"] true false false
             Toy.after_forced)
  = (Ok None, proc_world Toy.after_forced).
Proof.
  split; [exact Toy_get_first|]. split; [|split; [|split]].
  - intros (stored & fp & fr & fm & Hfp & _ & Hfr & _ & Hlt & _).
    vm_compute in Hfp. vm_compute in Hfr. simplify_eq. by vm_compute in Hlt.
  - rewrite (get_hit _ _ _ _ _ _ _ _ _ (Some Toy.returned))
      by exact (memo_find_here _ _ []).
    reflexivity.
  - rewrite get_miss by reflexivity.
    change (proc_world (Toy.process Toy.fs_cached)) with (Toy.world Toy.fs_cached).
    rewrite (get_no_photometry Toy.cfg Toy.phys Toy.ext Toy.rawphot ["phoenix_m"]
               true false false _ _ _ Toy_Result_new eq_refl eq_refl).
    reflexivity.
  - rewrite (get_hit _ _ _ _ _ _ _ _ _ None) by exact (memo_find_here _ _ []).
    reflexivity.
Qed.

(** [get_cached_attrs] on the same world. *)
Lemma get_cached_attrs_witness :
  ∃ o, get_wrapped Toy.cfg Toy.phys Toy.ext Toy.rawphot ["phoenix_m"] false false false
         (Toy.world Toy.fs_cached)
       = (Ok (Some o),
          loaded (pickle_of Toy.cfg Toy.rawphot ["phoenix_m"])
                 (Toy.world Toy.fs_cached)) ∧
       (∀ name, name ∈ file_info_attrs →
          o !! name = refreshed Toy.cfg ∅ Toy.rawphot ["phoenix_m"] [Star] !! name) ∧
       (∀ name, name ∉ file_info_attrs → o !! name = Toy.stored !! name) ∧
       (∀ p, proc_world p = Toy.world Toy.fs_cached →
          memo_find (Toy.rawphot, ["phoenix_m"], false, false, false) (proc_memo p) = None →
          get Toy.cfg Toy.phys Toy.ext Toy.rawphot ["phoenix_m"] false false false p
          = (Ok (Some o),
             {| proc_world := loaded (pickle_of Toy.cfg Toy.rawphot ["phoenix_m"])
                                     (Toy.world Toy.fs_cached);
                proc_memo := take maxsize
                  (((Toy.rawphot, ["phoenix_m"], false, false, false), Some o)
                   :: proc_memo p) |})).
Proof.
  exact (get_cached_attrs Toy.cfg Toy.phys Toy.ext Toy.rawphot ["phoenix_m"] false
           _ _ _ _ Toy_Result_new Toy_cache_valid).
Defined.

(** C8 as stated fails: the pickle in the example was written for another
    model, and the object [get] returns from it has the [model_comps] of
    the present call, not the stored one; this attribute is not among
    those the claim lists as recomputed. *)
Lemma get_cached_overwrites_model_comps :
  cache_valid Toy.cfg (Toy.world Toy.fs_cached) Toy.rawphot ["phoenix_m"] Toy.stored ∧
  Toy.stored !! "model_comps" = Some (VStrs ["kurucz"]) ∧
  ∃ o, (get Toy.cfg Toy.phys Toy.ext Toy.rawphot ["phoenix_m"] false false false
          (Toy.process Toy.fs_cached)).1 = Ok (Some o) ∧
       o !! "model_comps" = Some (VStrs ["phoenix_m"]) ∧
       o !! "n_comps" = Some (VInt 1) ∧
       Toy.stored !! "n_comps" = None.
Proof.
  split; [exact Toy_cache_valid|]. split; [vm_compute; reflexivity|].
  exists Toy.returned.
  split; [by rewrite Toy_get_first|].
  destruct (refreshed_attrs Toy.cfg Toy.stored Toy.rawphot ["phoenix_m"] [Star])
    as (Hm & _ & Hn & _).
  split; [exact Hm|]. split; [exact Hn|]. vm_compute. reflexivity.
Qed.

(** C6 as stated fails: the photometry file of the example has no
    photometry, and [get] returns the pickled result, which has
    observations. *)
Lemma get_cached_without_photometry :
  read_phot Toy.ext Toy.fs_cached Toy.rawphot = None ∧
  ∃ o, (get Toy.cfg Toy.phys Toy.ext Toy.rawphot ["phoenix_m"] false false false
          (Toy.process Toy.fs_cached)).1 = Ok (Some o) ∧
       hasattr (Some o) "obs" = true.
Proof.
  split; [reflexivity|]. exists Toy.returned.
  split; [by rewrite Toy_get_first|exact Toy_returned_obs].
Qed.

(** [no_photometry_no_result] on the example, with a forced update. *)
Lemma no_photometry_no_result_witness :
  get Toy.cfg Toy.phys Toy.ext Toy.rawphot ["phoenix_m"] true false false
    (Toy.process Toy.fs_cached)
  = (Ok None, Toy.after_forced).
Proof.
  exact (no_photometry_no_result Toy.cfg Toy.phys Toy.ext Toy.rawphot
           ["phoenix_m"] true false false (Toy.process Toy.fs_cached)
           _ _ eq_refl Toy_Result_new eq_refl eq_refl).
Defined.

Lemma Toy_evidences (l : list Q) :
  mapM evidence_of (Toy.result_with <$> l) = Ok l.
Proof.
  apply mapM_Ok. induction l as [|q l IH]; constructor; [|done].
  unfold evidence_of, Toy.result_with. by rewrite lookup_insert_eq.
Qed.

(** [stops_below_maximum] at the third candidate of the example, with
    evidences 10, 12 and 11. *)
Lemma stops_below_maximum_witness :
  stops ["phoenix_m"; "modbb_disk_r"; "modbb_disk_r"]
    (Toy.result_with <$> [10; 12; 11]%Q) = Ok true.
Proof.
  apply (proj1 (stops_below_maximum ["phoenix_m"; "modbb_disk_r"; "modbb_disk_r"]
                  (Toy.result_with <$> [10; 12; 11]%Q) [10; 12]%Q 11%Q
                  ltac:(simpl; lia) (Toy_evidences [10; 12; 11]%Q))).
  exists 12%Q. split; [apply list_elem_of_further, list_elem_of_here|reflexivity].
Defined.

(** C2 as stated fails.  With evidences 10, 8 and 9, the last for a
    family of two components, the newest evidence is above that of the
    candidate before it, and the loop stops on it, being below the
    first. *)
Lemma stops_on_an_increase :
  let f2 := ["phoenix_m"; "modbb_disk_r"] in
  stops_spec f2 [10; 8; 9]%Q = false ∧
  stops f2 (Toy.result_with <$> [10; 8; 9]%Q) = Ok true.
Proof.
  split; [reflexivity|].
  unfold stops. rewrite decide_True by (simpl; lia).
  rewrite Toy_evidences. reflexivity.
Qed.

(** [fit_results_raises] on the example configuration. *)
Lemma fit_results_raises_witness :
  fit_results Toy.cfg Toy.ext Toy.rawphot false true false (Toy.world Toy.fs_cached)
  = (Raise TypeError, Toy.world Toy.fs_cached).
Proof.
  apply (fit_results_raises Toy.cfg Toy.ext Toy.rawphot false true false
           (Toy.world Toy.fs_cached)).
  discriminate.
Defined.

(** With evidences 10, 12 and 11, the test that ends the loop is the one
    made with the third result in the list: the test made after the
    second goes on. *)
Lemma stop_comes_with_the_third_result :
  stops ["phoenix_m"; "modbb_disk_r"] (Toy.result_with <$> [10; 12]%Q) = Ok false ∧
  stops ["phoenix_m"; "modbb_disk_r"; "modbb_disk_r"]
    (Toy.result_with <$> [10; 12; 11]%Q) = Ok true.
Proof.
  split; unfold stops; rewrite decide_True by (simpl; lia);
    rewrite Toy_evidences; reflexivity.
Qed.





